(** * csvdata: binding CSV rows to the fields of a struct

    A shallow embedding of [csvdata.go] (package csvdata): the session
    constructor [NewReadIter], the row decoder [Get] and the helper
    [StrToInt64], together with the parts of the Go libraries they call
    ([strings], [strconv], [reflect]).

    Conventions.
    - Go strings are byte strings: [string] of the standard library.
    - Go [int], [int64] and [uint64] values are integers [Z]; where the code
      stores them in a narrower field the wrap-around is written out.
    - A run-time panic (slice index out of range, misuse of a
      [reflect.Value]) is an outcome of its own, never a returned value. *)

From Stdlib Require Import ZArith Ascii String Bool Lia.
From stdpp Require Import base list strings.

Open Scope string_scope.
Open Scope Z_scope.

(** ** Errors *)

(** The sentinel errors of [strconv]. *)
Inductive numerr : Type :=
| ErrSyntax
| ErrRange.

(** The values of Go's [error] interface the program meets: the sentinel
    [io.EOF], a [*strconv.NumError], and an error made by [errors.New]
    (which also stands for whatever other fault a row source reports). *)
Inductive error : Type :=
| io_EOF
| NumError (Func Num : string) (Err : numerr)
| errors_New (msg : string).

Definition error_eqb (a b : error) : bool :=
  match a, b with
  | io_EOF, io_EOF => true
  | NumError f1 n1 e1, NumError f2 n2 e2 =>
      String.eqb f1 f2 && String.eqb n1 n2 &&
      match e1, e2 with
      | ErrSyntax, ErrSyntax | ErrRange, ErrRange => true
      | _, _ => false
      end
  | errors_New m1, errors_New m2 => String.eqb m1 m2
  | _, _ => false
  end.

(** A Go call either returns or panics. *)
Inductive panic : Type :=
| index_out_of_range (i len : Z)
| reflect_misuse (method : string).

Inductive outcome (A : Type) : Type :=
| Returns (a : A)
| Panics (p : panic).
Arguments Returns {A} a.
Arguments Panics {A} p.

(** [s[i]] on a slice: a value, or a panic when [i] is outside [0, len). *)
Definition index {A : Type} (s : list A) (i : Z) : outcome A :=
  if (i <? 0) || (Z.of_nat (length s) <=? i)
  then Panics (index_out_of_range i (Z.of_nat (length s)))
  else match s !! Z.to_nat i with
       | Some x => Returns x
       | None => Panics (index_out_of_range i (Z.of_nat (length s)))
       end.

Definition byte_val (c : ascii) : Z := Z.of_N (N_of_ascii c).

(** ** Package strings *)

(** The part of [strings.EqualFold] that needs the Unicode tables: the
    comparison of two suffixes by simple case folding of their runes.  It is
    entered only at a byte outside ASCII. *)
Class UnicodeFold : Type :=
  fold_runes : string -> string -> bool.

Module GoStrings.

(** [strings.Contains(s, c)] for a one-byte substring [c]. *)
Fixpoint Contains (s : string) (c : ascii) : bool :=
  match s with
  | EmptyString => false
  | String a s' => if Ascii.eqb a c then true else Contains s' c
  end.

(** [strings.Replace(s, old, new, -1)] for one-byte [old] and [new]:
    every occurrence is replaced. *)
Fixpoint Replace (s : string) (old new : ascii) : string :=
  match s with
  | EmptyString => EmptyString
  | String a s' =>
      String (if Ascii.eqb a old then new else a) (Replace s' old new)
  end.

(** [strings.EqualFold]: the ASCII loop of the library, byte by byte; at
    the first byte above 127 on either side the rest is compared by
    [fold_runes]. *)
Fixpoint EqualFold `{UnicodeFold} (s t : string) : bool :=
  match s, t with
  | String a s', String b t' =>
      let sr := byte_val a in
      let tr := byte_val b in
      if 128 <=? Z.lor sr tr then fold_runes s t
      else if tr =? sr then EqualFold s' t'
      else
        let lo := Z.min sr tr in
        let hi := Z.max sr tr in
        if (65 <=? lo) && (lo <=? 90) && (hi =? lo + 97 - 65)
        then EqualFold s' t'
        else false
  | EmptyString, EmptyString => true
  | _, _ => false
  end.

End GoStrings.

(** ** Package strconv *)

Module Strconv.

(** [strconv.IntSize] on the 64-bit platforms. *)
Definition IntSize : Z := 64.

Definition syntaxError (fn str : string) : error := NumError fn str ErrSyntax.
Definition rangeError (fn str : string) : error := NumError fn str ErrRange.

Definition maxUint64 : Z := 2 ^ 64 - 1.

(** The digit loop of [ParseUint] in base 10: [n] is the value so far,
    [s0] the whole input (for the error), [maxVal] the largest value of
    the requested size. *)
Fixpoint ParseUint_loop (s0 : string) (maxVal : Z) (s : string) (n : Z)
  : Z * option error :=
  match s with
  | EmptyString => (n, None)
  | String c s' =>
      let b := byte_val c in
      if (48 <=? b) && (b <=? 57) then
        let d := b - 48 in
        if maxUint64 / 10 + 1 <=? n then (maxVal, Some (rangeError "ParseUint" s0))
        else
          let n10 := n * 10 in
          let n1 := (n10 + d) mod 2 ^ 64 in
          if (n1 <? n10) || (maxVal <? n1)
          then (maxVal, Some (rangeError "ParseUint" s0))
          else ParseUint_loop s0 maxVal s' n1
      else (0, Some (syntaxError "ParseUint" s0))
  end.

(** [strconv.ParseUint(s, 10, bitSize)]. *)
Definition ParseUint (s : string) (bitSize : Z) : Z * option error :=
  match s with
  | EmptyString => (0, Some (syntaxError "ParseUint" s))
  | _ =>
      let bitSize := if bitSize =? 0 then IntSize else bitSize in
      ParseUint_loop s (2 ^ bitSize - 1) s 0
  end.

(** [strconv.ParseInt(s, 10, bitSize)]. *)
Definition ParseInt (s : string) (bitSize : Z) : Z * option error :=
  match s with
  | EmptyString => (0, Some (syntaxError "ParseInt" s))
  | String c rest =>
      let s0 := s in
      let '(neg, s) :=
        if Ascii.eqb c "+" then (false, rest)
        else if Ascii.eqb c "-" then (true, rest)
        else (false, s) in
      let '(un, err) := ParseUint s bitSize in
      match err with
      | Some (NumError _ _ ErrSyntax) => (0, Some (syntaxError "ParseInt" s0))
      | _ =>
          let bitSize := if bitSize =? 0 then IntSize else bitSize in
          let cutoff := 2 ^ (bitSize - 1) in
          if negb neg && (cutoff <=? un)
          then (cutoff - 1, Some (rangeError "ParseInt" s0))
          else if neg && (cutoff <? un)
          then (- cutoff, Some (rangeError "ParseInt" s0))
          else (if neg then - un else un, None)
      end
  end.

End Strconv.

(** ** StrToInt64 *)

(** The error of [ParseInt] is bound and dropped; the number is returned
    whatever it is. *)
Definition StrToInt64 (s : string) : Z :=
  let '(i, err) := Strconv.ParseInt s 0 in
  match err with
  | Some _ => i
  | None => i
  end.

(** The conversion of text to a floating-point number, taken from the
    library as it is: the numbers, the rounding of a stored [float32] and
    [strconv]'s [atof64] on text that is not empty. *)
Class FloatConv : Type := {
  float64 : Type;
  float_zero : float64;
  to_float32 : float64 -> float64;
  atof64 : string -> float64 * option error
}.

(** [strconv.ParseFloat(s, bitSize)] for a [bitSize] other than 32: text
    with no byte to read is a syntax error ([readFloat] fails at once), any
    other text is [atof64]'s. *)
Definition ParseFloat `{FloatConv} (s : string) (bitSize : Z)
  : float64 * option error :=
  match s with
  | EmptyString => (float_zero, Some (Strconv.syntaxError "ParseFloat" s))
  | _ => atof64 s
  end.

(** ** The interfaces of the package *)

(** [Reader]: a row source.  [Read] yields a row and an error (as in Go,
    both are returned) and the source after the read. *)
Class Reader (R : Type) : Type :=
  Read : R -> (list string * option error) * R.

(** [Value]: a custom data type, with its two methods on the pointer
    receiver.  [Set] updates the receiver and answers whether it took the
    text. *)
Class Value (T : Type) : Type := {
  String_ : T -> string;
  Set_ : string -> T -> T * bool
}.

(** A value behind the [Value] interface: some type with the two methods,
    and the current state of the receiver. *)
Record ValueObj : Type := mkValueObj {
  carrier : Type;
  carrier_Value :: Value carrier;
  self : carrier
}.

(** [v.Set(s)] on an interface value: the receiver afterwards and the
    answer. *)
Definition call_Set (v : ValueObj) (s : string) : ValueObj * bool :=
  let '(x, ok) := Set_ s (self v) in
  (mkValueObj (carrier v) (carrier_Value v) x, ok).

(** ** Package reflect *)

Module Reflect.

Inductive Kind : Type :=
| Invalid | Bool
| Int | Int8 | Int16 | Int32 | Int64
| Uint | Uint8 | Uint16 | Uint32 | Uint64 | Uintptr
| Float32 | Float64 | Complex64 | Complex128
| Array | Chan | Func | Interface | Map | Pointer | Slice
| String | Struct | UnsafePointer.

(** The handles kept in [ReadIter.fields]: the zero [reflect.Value], the
    [i]-th field of the target struct ([sv.Field(i)]), or the pointer to
    it ([sv.Field(i).Addr()]). *)
Inductive Value : Type :=
| ZeroValue
| FieldOf (i : nat)
| AddrOf (i : nat).

End Reflect.

Section Csvdata.

Context `{UF : UnicodeFold} `{FC : FloatConv}.

(** What a field of the target struct holds.  A field whose pointer has
    the methods of [Value] is seen through them only ([Custom]); a field
    of interface type holds a dynamic value that is a [Value] or is not
    ([Dynamic]). *)
Inductive contents : Type :=
| IntVal (z : Z)
| UintVal (z : Z)
| FloatVal (x : float64)
| StringVal (s : string)
| Custom (v : ValueObj)
| Dynamic (v : option ValueObj)
| Opaque.

(** A field of the struct behind [ps]: what [reflect.StructField] tells
    about it and what it holds now.  [Tag] is [f.Tag.Get("field")]: empty
    when the field has no such annotation.  Fields are exported ones:
    [reflect] refuses to hand out or to set the others. *)
Record Field : Type := mkField {
  Name : string;
  Tag : string;
  Kind : Reflect.Kind;
  Val : contents
}.

(** The target struct, shared between the caller and the session. *)
Local Abbreviation Target := (list Field).

Definition set_Val (f : Field) (c : contents) : Field :=
  mkField (Name f) (Tag f) (Kind f) c.

(** *** Writing through a handle *)

Definition int_bits (k : Reflect.Kind) : option Z :=
  match k with
  | Reflect.Int | Reflect.Int64 => Some 64
  | Reflect.Int32 => Some 32
  | Reflect.Int16 => Some 16
  | Reflect.Int8 => Some 8
  | _ => None
  end.

Definition uint_bits (k : Reflect.Kind) : option Z :=
  match k with
  | Reflect.Uint | Reflect.Uint64 | Reflect.Uintptr => Some 64
  | Reflect.Uint32 => Some 32
  | Reflect.Uint16 => Some 16
  | Reflect.Uint8 => Some 8
  | _ => None
  end.

(** Conversion to a signed integer of [bits] bits: the low bits, read in
    two's complement. *)
Definition wrap_int (bits x : Z) : Z :=
  (x + 2 ^ (bits - 1)) mod 2 ^ bits - 2 ^ (bits - 1).

Definition wrap_uint (bits x : Z) : Z := x mod 2 ^ bits.

(** The field a settable handle stands for: [Set*] panics on the zero
    Value and on a pointer. *)
Definition settable_field (method : string) (f : Reflect.Value) (rec : Target)
  : outcome (nat * Field) :=
  match f with
  | Reflect.FieldOf i =>
      match rec !! i with
      | Some fld => Returns (i, fld)
      | None => Panics (reflect_misuse method)
      end
  | _ => Panics (reflect_misuse method)
  end.

Definition SetString (f : Reflect.Value) (x : string) (rec : Target)
  : outcome Target :=
  match settable_field "SetString" f rec with
  | Panics p => Panics p
  | Returns (i, fld) =>
      match Kind fld with
      | Reflect.String => Returns (<[i := set_Val fld (StringVal x)]> rec)
      | _ => Panics (reflect_misuse "SetString")
      end
  end.

Definition SetInt (f : Reflect.Value) (x : Z) (rec : Target) : outcome Target :=
  match settable_field "SetInt" f rec with
  | Panics p => Panics p
  | Returns (i, fld) =>
      match int_bits (Kind fld) with
      | Some bits => Returns (<[i := set_Val fld (IntVal (wrap_int bits x))]> rec)
      | None => Panics (reflect_misuse "SetInt")
      end
  end.

Definition SetUint (f : Reflect.Value) (x : Z) (rec : Target) : outcome Target :=
  match settable_field "SetUint" f rec with
  | Panics p => Panics p
  | Returns (i, fld) =>
      match uint_bits (Kind fld) with
      | Some bits => Returns (<[i := set_Val fld (UintVal (wrap_uint bits x))]> rec)
      | None => Panics (reflect_misuse "SetUint")
      end
  end.

Definition SetFloat (f : Reflect.Value) (x : float64) (rec : Target)
  : outcome Target :=
  match settable_field "SetFloat" f rec with
  | Panics p => Panics p
  | Returns (i, fld) =>
      match Kind fld with
      | Reflect.Float32 => Returns (<[i := set_Val fld (FloatVal (to_float32 x))]> rec)
      | Reflect.Float64 => Returns (<[i := set_Val fld (FloatVal x)]> rec)
      | _ => Panics (reflect_misuse "SetFloat")
      end
  end.

(** [val.Addr().Interface().(Value)] on a field: the pointer to the field
    has the methods of [Value]. *)
Definition addr_is_Value (fld : Field) : option ValueObj :=
  match Val fld with
  | Custom v => Some v
  | _ => None
  end.

(** [val.Interface().(Value)] on a field that failed the test above: only
    the dynamic value of an interface field can still be a [Value] (the
    methods of a type are among those of its pointer). *)
Definition self_is_Value (fld : Field) : option ValueObj :=
  match Val fld with
  | Dynamic (Some v) => Some v
  | _ => None
  end.

(** [f.Interface().(Value)] on a handle, with the place the receiver
    lives in; [Interface] panics on the zero Value. *)
Definition Interface_Value (f : Reflect.Value) (rec : Target)
  : outcome (option (nat * Field * ValueObj)) :=
  match f with
  | Reflect.ZeroValue => Panics (reflect_misuse "Interface")
  | Reflect.AddrOf i =>
      match rec !! i with
      | Some fld =>
          Returns (match addr_is_Value fld with
                   | Some v => Some (i, fld, v)
                   | None => None
                   end)
      | None => Panics (reflect_misuse "Interface")
      end
  | Reflect.FieldOf i =>
      match rec !! i with
      | Some fld =>
          Returns (match self_is_Value fld with
                   | Some v => Some (i, fld, v)
                   | None => None
                   end)
      | None => Panics (reflect_misuse "Interface")
      end
  end.

(** The receiver written back after a [Set]. *)
Definition store_receiver (fld : Field) (v : ValueObj) : Field :=
  match Val fld with
  | Dynamic _ => set_Val fld (Dynamic (Some v))
  | _ => set_Val fld (Custom v)
  end.


(** *** The session *)

(** The decode kinds ([none_k] is the zero value of a plan entry). *)
Inductive decode_kind : Type :=
| none_k
| string_k
| int_k
| float_k
| uint_k
| value_k.

Context {R : Type} `{RD : Reader R}.

Record ReadIter : Type := mkReadIter {
  Reader_ : R;
  Headers : list string;
  Error : option error;
  Line : Z;
  Column : Z;
  fields : list Reflect.Value;
  kinds : list decode_kind;
  tags : list Z
}.

Definition set_plan (this : ReadIter) (i : nat)
    (kind : decode_kind) (itag : Z) (val : Reflect.Value) : ReadIter :=
  mkReadIter (Reader_ this) (Headers this) (Error this) (Line this) (Column this)
             (<[i := val]> (fields this))
             (<[i := kind]> (kinds this))
             (<[i := itag]> (tags this)).

Definition set_Reader_Line (this : ReadIter) (rdr : R) (line : Z) : ReadIter :=
  mkReadIter rdr (Headers this) (Error this) line (Column this)
             (fields this) (kinds this) (tags this).

Definition set_Error (this : ReadIter) (e : error) : ReadIter :=
  mkReadIter (Reader_ this) (Headers this) (Some e) (Line this) (Column this)
             (fields this) (kinds this) (tags this).

Definition set_Column (this : ReadIter) (c : Z) : ReadIter :=
  mkReadIter (Reader_ this) (Headers this) (Error this) (Line this) c
             (fields this) (kinds this) (tags this).

(** Addition on Go's [int] (64 bits). *)
Definition int_add (a b : Z) : Z := wrap_int 64 (a + b).

(** *** NewReadIter *)

(** The column name a field is looked up by: the [field] tag, or without
    one the name of the field with its underscores turned into spaces. *)
Definition lookup_tag (f : Field) : string :=
  let tag := Tag f in
  if (String.length tag =? 0)%nat then
    let tag := Name f in
    if GoStrings.Contains tag "_" then GoStrings.Replace tag "_" " " else tag
  else tag.

(** [itag := -1; for k, h := range Headers { if EqualFold(h, tag) { itag = k; break } }]
    from position [k] on. *)
Fixpoint find_header (hs : list string) (tag : string) (k : Z) : Z :=
  match hs with
  | [] => -1
  | h :: hs' =>
      if GoStrings.EqualFold h tag then k else find_header hs' tag (k + 1)
  end.

(** The kind of a matched field and the handle kept for it, or nothing
    when the type cannot be converted. *)
Definition classify (i : nat) (f : Field) : option (decode_kind * Reflect.Value) :=
  match addr_is_Value f with
  | Some _ => Some (value_k, Reflect.AddrOf i)
  | None =>
      match Kind f with
      | Reflect.Int | Reflect.Int16 | Reflect.Int8 | Reflect.Int32 | Reflect.Int64 =>
          Some (int_k, Reflect.FieldOf i)
      | Reflect.Uint | Reflect.Uint16 | Reflect.Uint8 | Reflect.Uint32 | Reflect.Uint64 =>
          Some (uint_k, Reflect.FieldOf i)
      | Reflect.Float32 | Reflect.Float64 => Some (float_k, Reflect.FieldOf i)
      | Reflect.String => Some (string_k, Reflect.FieldOf i)
      | _ =>
          match self_is_Value f with
          | Some _ => Some (value_k, Reflect.FieldOf i)
          | None => None
          end
      end
  end.

(** The loop over the fields of the struct, from field [i] on ([rest] are
    the fields not yet visited). *)
Fixpoint NewReadIter_loop (this : ReadIter) (i : nat) (rest : list Field)
  : option ReadIter * option error :=
  match rest with
  | [] => (Some this, None)
  | f :: rest' =>
      let tag := lookup_tag f in
      let itag := find_header (Headers this) tag 0 in
      if itag =? -1 then NewReadIter_loop this (S i) rest'
      else
        match classify i f with
        | None => (None, Some (errors_New "cannot convert this type "))
        | Some (kind, val) =>
            NewReadIter_loop (set_plan this i kind itag val) (S i) rest'
        end
  end.

Definition NewReadIter (rdr : R) (ps : Target) : option ReadIter * option error :=
  let '((headers, err), rdr) := Read rdr in
  match err with
  | Some e => (None, Some e)
  | None =>
      let nf := length ps in
      let this :=
        mkReadIter rdr headers None 1 0
                   (replicate nf Reflect.ZeroValue)
                   (replicate nf none_k)
                   (replicate nf 0) in
      NewReadIter_loop this 0%nat ps
  end.

(** *** Get *)

(** The [switch] of the loop body: the target and [err] after it. *)
Definition convert (kind : decode_kind) (f : Reflect.Value) (vals : string)
    (rec : Target) (err : option error) : outcome (Target * option error) :=
  match kind with
  | string_k =>
      match SetString f vals rec with
      | Panics p => Panics p
      | Returns rec => Returns (rec, err)
      end
  | int_k =>
      let vals := if String.eqb vals "" then "0" else vals in
      let '(ival, err) := Strconv.ParseInt vals 0 in
      match SetInt f ival rec with
      | Panics p => Panics p
      | Returns rec => Returns (rec, err)
      end
  | uint_k =>
      let '(uval, err) := Strconv.ParseUint vals 0 in
      match SetUint f uval rec with
      | Panics p => Panics p
      | Returns rec => Returns (rec, err)
      end
  | float_k =>
      let '(fval, err) := ParseFloat vals 0 in
      match SetFloat f fval rec with
      | Panics p => Panics p
      | Returns rec => Returns (rec, err)
      end
  | value_k =>
      match Interface_Value f rec with
      | Panics p => Panics p
      | Returns None => Returns (rec, Some (errors_New "Not a Value object"))
      | Returns (Some (i, fld, v)) =>
          let '(v, _) := call_Set v vals in
          Returns (<[i := store_receiver fld v]> rec, err)
      end
  | none_k => Returns (rec, err)
  end.

(** [for fi, ci := range this.tags { ... }] from entry [fi] on; [rest] are
    the columns of the entries not yet visited, [err] the local variable.
    The result is what [Get] returns (or its panic), the session and the
    target as the loop leaves them.  A column that indexed the row is
    below the length of a slice, so [ci + 1] does not overflow. *)
Fixpoint Get_loop (this : ReadIter) (row : list string) (fi : nat) (rest : list Z)
    (rec : Target) (err : option error) : outcome bool * ReadIter * Target :=
  match rest with
  | [] => (Returns true, this, rec)
  | ci :: rest' =>
      match index row ci with
      | Panics p => (Panics p, this, rec)
      | Returns vals =>
          match index (fields this) (Z.of_nat fi), index (kinds this) (Z.of_nat fi) with
          | Panics p, _ | Returns _, Panics p => (Panics p, this, rec)
          | Returns f, Returns kind =>
              match convert kind f vals rec err with
              | Panics p => (Panics p, this, rec)
              | Returns (rec, err) =>
                  match err with
                  | Some e => (Returns false, set_Error (set_Column this (ci + 1)) e, rec)
                  | None => Get_loop this row (S fi) rest' rec err
                  end
              end
          end
      end
  end.

Definition Get (this : ReadIter) (rec : Target) : outcome bool * ReadIter * Target :=
  let '((row, err), rdr) := Read (Reader_ this) in
  let this := set_Reader_Line this rdr (int_add (Line this) 1) in
  match err with
  | Some e =>
      (Returns false, if error_eqb e io_EOF then this else set_Error this e, rec)
  | None => Get_loop this row 0%nat (tags this) rec err
  end.

End Csvdata.

Arguments ReadIter : clear implicits.

(** The target struct, shared between the caller and the session. *)
Abbreviation Target := (list Field).

(** ** Sessions in use *)

Section Sessions.

Context `{UF : UnicodeFold} `{FC : FloatConv} {R : Type} `{RD : Reader R}.

(** Entry [i] of the plan: its kind, its column and its handle. *)
Definition plan_entry (this : ReadIter R) (i : nat)
  : option decode_kind * option Z * option Reflect.Value :=
  (kinds this !! i, tags this !! i, fields this !! i).

(** The session and the target after any number of calls of [Get],
    whatever each of them returned. *)
Inductive after_Gets : ReadIter R -> Target -> ReadIter R -> Target -> Prop :=
| after_no_Get this rec : after_Gets this rec this rec
| after_one_more this rec o this1 rec1 this2 rec2 :
    Get this rec = (o, this1, rec1) ->
    after_Gets this1 rec1 this2 rec2 ->
    after_Gets this rec this2 rec2.

(** [k] is the first position of [hs] whose name equals [key] up to
    case. *)
Definition first_match (hs : list string) (key : string) (k : nat) : Prop :=
  (exists h, hs !! k = Some h /\ GoStrings.EqualFold h key = true) /\
  forall j h, (j < k)%nat -> hs !! j = Some h -> GoStrings.EqualFold h key = false.

(** No name of [hs] equals [key] up to case. *)
Definition no_match (hs : list string) (key : string) : Prop :=
  forall j h, hs !! j = Some h -> GoStrings.EqualFold h key = false.

(** The kinds the [switch] of [NewReadIter] names. *)
Definition primitive_kinds : list Reflect.Kind :=
  [Reflect.Int; Reflect.Int16; Reflect.Int8; Reflect.Int32; Reflect.Int64;
   Reflect.Uint; Reflect.Uint16; Reflect.Uint8; Reflect.Uint32; Reflect.Uint64;
   Reflect.Float32; Reflect.Float64; Reflect.String].

(** What the loop of [NewReadIter] leaves in entry [n] for the field [f]
    under the header [hs], when the entry held [e] before. *)
Definition planned (hs : list string) (n : nat) (f : Field)
    (e : option decode_kind * option Z * option Reflect.Value)
  : option decode_kind * option Z * option Reflect.Value :=
  let itag := find_header hs (lookup_tag f) 0 in
  if itag =? -1 then e
  else match classify n f with
       | Some (kind, val) => (Some kind, Some itag, Some val)
       | None => e
       end.

(** Two states of a session that differ in the plan at most, the plan
    keeping its size. *)
Definition same_cursor (this this0 : ReadIter R) : Prop :=
  Reader_ this = Reader_ this0 /\ Headers this = Headers this0 /\
  Error this = Error this0 /\ Line this = Line this0 /\
  Column this = Column this0 /\
  length (kinds this) = length (kinds this0) /\
  length (tags this) = length (tags this0) /\
  length (fields this) = length (fields this0).

(** The lookup key in the words of the specification: the explicit name
    annotation as it is when there is one, else the declared name with each
    underscore replaced by a space. *)
Definition spec_lookup_key (f : Field) : string :=
  match Tag f with
  | EmptyString =>
      string_of_list_ascii
        (List.map (fun c : ascii => if Ascii.eqb c "_" then " "%char else c)
                  (list_ascii_of_string (Name f)))
  | annotation => annotation
  end.

(** The entry of a field that found no column. *)
Definition placeholder : option decode_kind * option Z * option Reflect.Value :=
  (Some none_k, Some 0, Some Reflect.ZeroValue).

(** Entry [j] of a plan can be decoded into the target: its handle is the
    field [j] itself, of a kind the entry's [Set*] accepts, or it reaches a
    [Value]; the entry of a field without column has the zero handle. *)
Definition entry_typed (j : nat) (kind : decode_kind) (f : Reflect.Value)
    (rec : Target) : Prop :=
  match kind with
  | none_k => f = Reflect.ZeroValue
  | string_k =>
      f = Reflect.FieldOf j /\
      exists fld, rec !! j = Some fld /\ Kind fld = Reflect.String
  | int_k =>
      f = Reflect.FieldOf j /\
      exists fld bits, rec !! j = Some fld /\ int_bits (Kind fld) = Some bits /\
                       (bits = 8 \/ bits = 16 \/ bits = 32 \/ bits = 64)
  | uint_k =>
      f = Reflect.FieldOf j /\
      exists fld bits, rec !! j = Some fld /\ uint_bits (Kind fld) = Some bits
  | float_k =>
      f = Reflect.FieldOf j /\
      exists fld, rec !! j = Some fld /\
                  (Kind fld = Reflect.Float32 \/ Kind fld = Reflect.Float64)
  | value_k =>
      exists fld v, rec !! j = Some fld /\
        ((f = Reflect.AddrOf j /\ Val fld = Custom v) \/
         (f = Reflect.FieldOf j /\ Val fld = Dynamic (Some v)))
  end.

(** The plan of a session fits the target: the three slices have one
    length and every entry can be decoded. *)
Definition plan_typed (this : ReadIter R) (rec : Target) : Prop :=
  length (kinds this) = length (tags this) /\
  length (fields this) = length (tags this) /\
  forall j kind f,
    kinds this !! j = Some kind -> fields this !! j = Some f ->
    entry_typed j kind f rec.

(** A column can index the row. *)
Definition in_row (row : list string) (c : Z) : Prop :=
  0 <= c < Z.of_nat (length row).

(** The entries before [fi] decode [row] without fault, turning the target
    [rec] into [rec1]. *)
Definition decodes_upto (this : ReadIter R) (row : list string) (fi : nat)
    (rec rec1 : Target) : Prop :=
  Get_loop this row 0%nat (take fi (tags this)) rec None = (Returns true, this, rec1).

(** The same session with no error recorded. *)
Definition without_Error (this : ReadIter R) : ReadIter R :=
  mkReadIter (Reader_ this) (Headers this) None (Line this) (Column this)
             (fields this) (kinds this) (tags this).

(** The error of [NewReadIter] on a type it cannot convert. *)
Definition type_error : error := errors_New "cannot convert this type ".

(** The caller's loop [for rs.Get() { }]: the session and the target after
    calls that all returned true. *)
Inductive looping : ReadIter R -> Target -> ReadIter R -> Target -> Prop :=
| looping_start this rec : looping this rec this rec
| looping_next this rec this1 rec1 this2 rec2 :
    Get this rec = (Returns true, this1, rec1) ->
    looping this1 rec1 this2 rec2 ->
    looping this rec this2 rec2.

(** The session as [Get] has it when it enters its loop: the source read
    once more and the line counted. *)
Definition after_Read (this : ReadIter R) : ReadIter R :=
  set_Reader_Line this (snd (Read (Reader_ this))) (int_add (Line this) 1).

End Sessions.

(** ** Instances and data for the scenarios *)

(** A row source that replays a list of reads and then reports the end of
    the input, as [csv.Reader] does on a finite input. *)
Definition script : Type := list (list string * option error).

Definition script_Read : Reader script :=
  fun rdr =>
    match rdr with
    | [] => (([], Some io_EOF), [])
    | r :: rdr' => (r, rdr')
    end.

(** Scenarios are written in ASCII, where [fold_runes] is never entered. *)
Definition ascii_fold : UnicodeFold := fun s t => String.eqb s t.

(** Scenarios use no number with a fraction or an exponent: their floats
    are whole numbers. *)
Definition whole_floats : FloatConv :=
  {| float64 := Z;
     float_zero := 0;
     to_float32 := fun x : Z => x;
     atof64 := fun s : string =>
       match Strconv.ParseInt s 64 with
       | (n, None) => (n, @None error)
       | (_, Some _) => (0, Some (Strconv.syntaxError "ParseFloat" s))
       end |}.

(** A custom type in the manner of the package's [Value]: a switch that
    takes "on" and "off" and rejects any other text. *)
Definition switch_Value : Value bool :=
  {| String_ := fun b : bool => if b then "on" else "off";
     Set_ := fun (s : string) (b : bool) =>
       if String.eqb s "on" then (true, true)
       else if String.eqb s "off" then (false, true)
       else (b, false) |}.

Definition switch_off : ValueObj := mkValueObj bool switch_Value false.

(** A header with names that differ in case only, and a struct whose first
    field is annotated with one column while its own name is another. *)
Definition tagged_source : script :=
  [(["first name"; "b"; "A"; "a"], None); (["Ada"; "x"; "y"; "z"], None)].

Definition tagged_struct : list (@Field whole_floats) :=
  [mkField "B" "A" Reflect.String (StringVal "");
   mkField "First_Name" "" Reflect.String (StringVal "")].

Definition tagged_session : ReadIter script :=
  mkReadIter [(["Ada"; "x"; "y"; "z"], None)] ["first name"; "b"; "A"; "a"]
             None 1 0
             [Reflect.FieldOf 0; Reflect.FieldOf 1]
             [string_k; string_k]
             [2; 0].

(** The short row of the specification: a header of two columns, two
    string fields named after them, and a row of one field. *)
Definition short_source : script := [(["A"; "B"], None); (["1"], None)].

Definition short_struct : list (@Field whole_floats) :=
  [mkField "A" "" Reflect.String (StringVal "");
   mkField "B" "" Reflect.String (StringVal "")].

Definition short_session : ReadIter script :=
  mkReadIter [(["1"], None)] ["A"; "B"] None 1 0
             [Reflect.FieldOf 0; Reflect.FieldOf 1]
             [string_k; string_k]
             [0; 1].

(** A row with empty text in a signed and in an unsigned column. *)
Definition blank_source : script :=
  [(["Name"; "Age"; "Count"], None); (["Ada"; ""; ""], None)].

Definition blank_struct : list (@Field whole_floats) :=
  [mkField "Name" "" Reflect.String (StringVal "");
   mkField "Age" "" Reflect.Int (IntVal 7);
   mkField "Count" "" Reflect.Uint (UintVal 7)].

Definition blank_session : ReadIter script :=
  mkReadIter [(["Ada"; ""; ""], None)] ["Name"; "Age"; "Count"] None 1 0
             [Reflect.FieldOf 0; Reflect.FieldOf 1; Reflect.FieldOf 2]
             [string_k; int_k; uint_k]
             [0; 1; 2].

(** A row that does not convert, followed by one that does. *)
Definition faulty_source : script :=
  [(["A"], None); (["x"], None); (["5"], None)].

Definition faulty_struct : list (@Field whole_floats) :=
  [mkField "A" "" Reflect.Int (IntVal 0)].

Definition faulty_session : ReadIter script :=
  mkReadIter [(["x"], None); (["5"], None)] ["A"] None 1 0
             [Reflect.FieldOf 0] [int_k] [0].

(** The session and the target after the first call of [Get] on
    [faulty_session]. *)
Definition faulted_session : ReadIter script :=
  mkReadIter [(["5"], None)] ["A"] (Some (NumError "ParseInt" "x" ErrSyntax)) 2 1
             [Reflect.FieldOf 0] [int_k] [0].

(** A custom field and a text its [Set] rejects. *)
Definition switch_source : script := [(["Power"], None); (["maybe"], None)].

Definition switch_struct : list (@Field whole_floats) :=
  [mkField "Power" "" Reflect.Bool (Custom switch_off)].

Definition switch_session : ReadIter script :=
  mkReadIter [(["maybe"], None)] ["Power"] None 1 0
             [Reflect.AddrOf 0] [value_k] [0].





(** A struct with a field the header does not name, read from a source
    whose second row has no field at all. *)
Definition partial_source : script := [(["A"], None); ([], None)].

Definition partial_struct : list (@Field whole_floats) :=
  [mkField "A" "" Reflect.String (StringVal "");
   mkField "B" "" Reflect.String (StringVal "kept")].

Definition partial_session : ReadIter script :=
  mkReadIter [([], None)] ["A"] None 1 0
             [Reflect.FieldOf 0; Reflect.ZeroValue]
             [string_k; none_k]
             [0; 0].

(** A field of a channel type under a column of its name. *)
Definition chan_source : script := [(["C"], None)].

Definition chan_struct : list (@Field whole_floats) :=
  [mkField "C" "" Reflect.Chan Opaque].

(** ** Case folding on ASCII, for the statements about [strings] *)

(** An upper-case letter is taken to its lower-case letter, any other byte
    to itself. *)
Definition fold_byte (b : Z) : Z :=
  if (65 <=? b) && (b <=? 90) then b + 32 else b.

Fixpoint bytes (s : string) : list Z :=
  match s with
  | EmptyString => []
  | String c s' => byte_val c :: bytes s'
  end.

Definition is_ascii (s : string) : Prop := Forall (fun b => b < 128) (bytes s).

(** ** Reading a numeral, for the statements about [strconv] *)

Definition is_digit (c : ascii) : bool :=
  (48 <=? byte_val c) && (byte_val c <=? 57).

(** The number written by [n] followed by the leading decimal digits of
    [t], and whether [t] has nothing but digits. *)
Fixpoint leading_digits (t : string) (n : Z) : Z * bool :=
  match t with
  | EmptyString => (n, true)
  | String c t' =>
      if is_digit c then leading_digits t' (n * 10 + (byte_val c - 48))
      else (n, false)
  end.

(** An optional sign taken off the front. *)
Definition split_sign (s : string) : bool * string :=
  match s with
  | String "+" t => (false, t)
  | String "-" t => (true, t)
  | _ => (false, s)
  end.

(** The nearest [int64]. *)
Definition clamp_int64 (z : Z) : Z := Z.max (- 2 ^ 63) (Z.min (2 ^ 63 - 1) z).

(** [ParseInt] on the text [t] that follows the sign, [s0] being the whole
    input. *)
Definition ParseInt_after_sign (s0 : string) (neg : bool) (t : string)
  : Z * option error :=
  let '(un, err) := Strconv.ParseUint t 0 in
  match err with
  | Some (NumError _ _ ErrSyntax) => (0, Some (Strconv.syntaxError "ParseInt" s0))
  | _ =>
      if negb neg && (2 ^ 63 <=? un)
      then (2 ^ 63 - 1, Some (Strconv.rangeError "ParseInt" s0))
      else if neg && (2 ^ 63 <? un)
      then (- 2 ^ 63, Some (Strconv.rangeError "ParseInt" s0))
      else (if neg then - un else un, None)
  end.

(** ** Runs of calls *)

Section Runs.

Context `{FC : FloatConv} {R : Type} `{RD : Reader R}.

(** The session and the target after [n] calls of [Get] in a row, whatever
    each of them returned. *)
Fixpoint Gets (n : nat) (this : ReadIter R) (rec : Target) : ReadIter R * Target :=
  match n with
  | O => (this, rec)
  | S n' => let '(_, this1, rec1) := Get this rec in Gets n' this1 rec1
  end.

(** The float a field of kind [k] keeps of [x]: a [float32] field rounds
    it. *)
Definition stored_float (k : Reflect.Kind) (x : float64) : float64 :=
  match k with
  | Reflect.Float32 => to_float32 x
  | _ => x
  end.

End Runs.

(** A text with its letters folded, byte by byte. *)
Definition folded (s : string) : list Z := List.map fold_byte (bytes s).

(** The range of a signed integer of [bits] bits. *)
Definition in_int_range (bits z : Z) : Prop :=
  - 2 ^ (bits - 1) <= z < 2 ^ (bits - 1).


(** ** Further data for the scenarios *)

(** A custom type over an integer: the field's kind is [Int], its pointer
    is a [Value]. *)
Definition dial_struct : list (@Field whole_floats) :=
  [mkField "Power" "" Reflect.Int (Custom switch_off)].

(** A text the switch takes. *)
Definition switch_on_source : script := [(["Power"], None); (["on"], None)].

Definition switch_on_session : ReadIter script :=
  mkReadIter [(["on"], None)] ["Power"] None 1 0
             [Reflect.AddrOf 0] [value_k] [0].

(** A field of eight bits and a number that does not fit it. *)
Definition narrow_source : script := [(["N"], None); (["300"], None)].

Definition narrow_struct : list (@Field whole_floats) :=
  [mkField "N" "" Reflect.Int8 (IntVal 0)].

Definition narrow_session : ReadIter script :=
  mkReadIter [(["300"], None)] ["N"] None 1 0
             [Reflect.FieldOf 0] [int_k] [0].


(** * Properties *)

(** ** strconv and StrToInt64 *)

Lemma byte_val_range c : 0 <= byte_val c < 256.
Proof.
  unfold byte_val. pose proof (N_ascii_bounded c). lia.
Qed.

Lemma leading_digits_ge t : forall n, 0 <= n -> n <= fst (leading_digits t n).
Proof.
  induction t as [|c t IH]; intros n Hn; simpl; [lia|].
  destruct (is_digit c) eqn:Hd; simpl; [|lia].
  unfold is_digit in Hd. apply andb_true_iff in Hd as [H1 H2].
  apply Z.leb_le in H1, H2.
  specialize (IH (n * 10 + (byte_val c - 48))). lia.
Qed.

(** The digit loop against the numeral it reads: a range error as soon as
    the digits pass [2^64 - 1], else a syntax error at a byte that is no
    digit, else the number. *)
Lemma ParseUint_loop_spec s0 t : forall n,
  0 <= n <= Strconv.maxUint64 ->
  Strconv.ParseUint_loop s0 (2 ^ 64 - 1) t n =
    let '(v, all) := leading_digits t n in
    if Strconv.maxUint64 <? v
    then (2 ^ 64 - 1, Some (Strconv.rangeError "ParseUint" s0))
    else if all then (v, None)
    else (0, Some (Strconv.syntaxError "ParseUint" s0)).
Proof.
  unfold Strconv.maxUint64.
  induction t as [|c t IH]; intros n Hn; simpl.
  - destruct (2 ^ 64 - 1 <? n) eqn:E; [apply Z.ltb_lt in E; lia | reflexivity].
  - unfold is_digit. pose proof (byte_val_range c) as Hc.
    destruct ((48 <=? byte_val c) && (byte_val c <=? 57)) eqn:Hd.
    + apply andb_true_iff in Hd as [H1 H2]. apply Z.leb_le in H1, H2.
      set (d := byte_val c - 48) in *.
      pose proof (leading_digits_ge t (n * 10 + d)) as Hge.
      destruct (leading_digits t (n * 10 + d)) as [v all] eqn:Hl. simpl in Hge.
      unfold Strconv.maxUint64.
      destruct ((2 ^ 64 - 1) / 10 + 1 <=? n) eqn:Hcut.
      * apply Z.leb_le in Hcut.
        assert (2 ^ 64 - 1 < v) as Hv.
        { change ((2 ^ 64 - 1) / 10 + 1) with 1844674407370955162 in Hcut. lia. }
        apply Z.ltb_lt in Hv. rewrite Hv. reflexivity.
      * apply Z.leb_gt in Hcut.
        change ((2 ^ 64 - 1) / 10 + 1) with 1844674407370955162 in Hcut.
        destruct (Z_lt_le_dec (n * 10 + d) (2 ^ 64)) as [Hfit|Hov].
        -- rewrite Z.mod_small by lia.
           destruct (n * 10 + d <? n * 10) eqn:E1; [apply Z.ltb_lt in E1; lia|].
           destruct (2 ^ 64 - 1 <? n * 10 + d) eqn:E2; [apply Z.ltb_lt in E2; lia|].
           simpl. rewrite IH by lia. rewrite Hl. reflexivity.
        -- assert ((n * 10 + d) mod 2 ^ 64 = n * 10 + d - 2 ^ 64) as ->.
           { symmetry. apply Z.mod_unique with (q := 1); lia. }
           assert ((n * 10 + d - 2 ^ 64 <? n * 10) = true) as -> by (apply Z.ltb_lt; lia).
           simpl.
           assert ((2 ^ 64 - 1 <? v) = true) as -> by (apply Z.ltb_lt; lia).
           reflexivity.
    + destruct (2 ^ 64 - 1 <? n) eqn:E; [apply Z.ltb_lt in E; lia | reflexivity].
Qed.

Lemma ParseUint_spec t :
  Strconv.ParseUint t 0 =
    match t with
    | EmptyString => (0, Some (Strconv.syntaxError "ParseUint" t))
    | _ =>
        let '(v, all) := leading_digits t 0 in
        if Strconv.maxUint64 <? v
        then (2 ^ 64 - 1, Some (Strconv.rangeError "ParseUint" t))
        else if all then (v, None)
        else (0, Some (Strconv.syntaxError "ParseUint" t))
    end.
Proof.
  destruct t as [|c t]; [reflexivity|].
  unfold Strconv.ParseUint.
  change (if 0 =? 0 then Strconv.IntSize else 0) with 64.
  apply ParseUint_loop_spec. unfold Strconv.maxUint64. lia.
Qed.

Lemma ParseInt_split s :
  s <> "" ->
  Strconv.ParseInt s 0 = ParseInt_after_sign s (fst (split_sign s)) (snd (split_sign s)).
Proof.
  destruct s as [|c s]; [congruence|]. intros _.
  unfold Strconv.ParseInt, ParseInt_after_sign, split_sign.
  change (if 0 =? 0 then Strconv.IntSize else 0) with 64.
  change (2 ^ (64 - 1)) with (2 ^ 63).
  destruct (Ascii.eqb c "+") eqn:Ep.
  { apply Ascii.eqb_eq in Ep. subst c. reflexivity. }
  destruct (Ascii.eqb c "-") eqn:Em.
  { apply Ascii.eqb_eq in Em. subst c. reflexivity. }
  assert (match String c s with
          | String "+" t => (false, t)
          | String "-" t => (true, t)
          | _ => (false, String c s)
          end = (false, String c s)) as ->.
  { destruct c as [[] [] [] [] [] [] [] []]; try reflexivity;
      simpl in Ep, Em; discriminate. }
  reflexivity.
Qed.

Lemma leading_digits_nonneg t n : 0 <= n -> 0 <= fst (leading_digits t n).
Proof. intros Hn. pose proof (leading_digits_ge t n Hn). lia. Qed.

(** C10 (as amended).  [StrToInt64] reports no failure and returns the
    number [ParseInt] hands back with its error: 0 when nothing follows the
    sign, or when a byte that is no digit is met while the digits before it
    still fit 64 bits; in every other case the value of the leading digits
    brought into the range of [int64], so that digits that overflow give
    [2^63 - 1] or [- 2^63] and not 0, with or without bytes after them. *)
Theorem StrToInt64_value (s : string) :
  let '(neg, t) := split_sign s in
  let '(v, all) := leading_digits t 0 in
  StrToInt64 s =
    if String.eqb t "" || (negb all && (v <=? Strconv.maxUint64)) then 0
    else clamp_int64 (if neg then - v else v).
Proof.
  destruct (split_sign s) as [neg t] eqn:Hs.
  destruct (leading_digits t 0) as [v all] eqn:Hl.
  assert (0 <= v) as Hv0.
  { pose proof (leading_digits_nonneg t 0 ltac:(lia)) as H. rewrite Hl in H. exact H. }
  unfold StrToInt64.
  destruct s as [|c s'].
  { simpl in Hs. injection Hs as <- <-. reflexivity. }
  rewrite ParseInt_split by discriminate. rewrite Hs. simpl fst; simpl snd.
  unfold ParseInt_after_sign. rewrite ParseUint_spec.
  destruct t as [|c' t'].
  { reflexivity. }
  rewrite Hl. change (String.eqb (String c' t') "") with false.
  rewrite orb_false_l. unfold Strconv.maxUint64, clamp_int64 in *.
  destruct (2 ^ 64 - 1 <? v) eqn:Hov.
  - apply Z.ltb_lt in Hov.
    assert ((v <=? 2 ^ 64 - 1) = false) as -> by (apply Z.leb_gt; lia).
    rewrite andb_false_r. unfold Strconv.rangeError.
    destruct neg; simpl negb; simpl andb.
    + change (2 ^ 63 <? 2 ^ 64 - 1) with true. cbv iota.
      cbv iota. lia.
    + change (2 ^ 63 <=? 2 ^ 64 - 1) with true. cbv iota.
      cbv iota. lia.
  - apply Z.ltb_ge in Hov.
    assert ((v <=? 2 ^ 64 - 1) = true) as -> by (apply Z.leb_le; lia).
    rewrite andb_true_r.
    destruct all; simpl negb; cbv iota; [|reflexivity].
    destruct neg; simpl negb; simpl andb.
    + destruct (2 ^ 63 <? v) eqn:E.
      * apply Z.ltb_lt in E. simpl. lia.
      * apply Z.ltb_ge in E. simpl. lia.
    + destruct (2 ^ 63 <=? v) eqn:E.
      * apply Z.leb_le in E. simpl. lia.
      * apply Z.leb_gt in E. simpl. lia.
Qed.

(** C10, a counterexample.  Twenty nines followed by a letter are no
    base-10 integer; the digits overflow before the letter is read, and the
    result is the largest [int64], not 0. *)
Lemma StrToInt64_not_zero :
  snd (leading_digits "99999999999999999999x" 0) = false /\
  snd (Strconv.ParseInt "99999999999999999999x" 0)
    = Some (NumError "ParseInt" "99999999999999999999x" ErrRange) /\
  StrToInt64 "99999999999999999999x" = 9223372036854775807 /\
  StrToInt64 "0" = 0.
Proof. repeat split; vm_compute; reflexivity. Qed.


(** ** strings.EqualFold on ASCII *)

Lemma lor_ascii a b : 0 <= a < 128 -> 0 <= b < 128 -> Z.lor a b < 128.
Proof.
  intros Ha Hb.
  destruct (Z.eq_dec a 0) as [->|Ha0]; [rewrite Z.lor_0_l; lia|].
  destruct (Z.eq_dec b 0) as [->|Hb0]; [rewrite Z.lor_0_r; lia|].
  assert (0 <= Z.lor a b) as Hnn by (apply Z.lor_nonneg; lia).
  assert (Z.lor a b <> 0) as Hnz by (rewrite Z.lor_eq_0_iff; lia).
  change 128 with (2 ^ 7). apply Z.log2_lt_pow2; [lia|].
  rewrite Z.log2_lor by lia.
  assert (Z.log2 a < 7) by (apply Z.log2_lt_pow2; [lia | change (2 ^ 7) with 128; lia]).
  assert (Z.log2 b < 7) by (apply Z.log2_lt_pow2; [lia | change (2 ^ 7) with 128; lia]).
  lia.
Qed.

(** On ASCII text [EqualFold] is equality up to the case of letters, and
    the Unicode tables are not consulted. *)
Lemma EqualFold_ascii `{UF : UnicodeFold} s : forall t,
  is_ascii s -> is_ascii t ->
  (GoStrings.EqualFold s t = true <->
   List.map fold_byte (bytes s) = List.map fold_byte (bytes t)).
Proof.
  induction s as [|a s IH]; intros [|b t] Hs Ht; simpl.
  - tauto.
  - split; discriminate.
  - split; discriminate.
  - inversion Hs as [|x l Ha Hs']; inversion Ht as [|y l' Hb Ht']; subst.
    pose proof (byte_val_range a) as Ra. pose proof (byte_val_range b) as Rb.
    pose proof (lor_ascii (byte_val a) (byte_val b)) as Hlor.
    destruct (128 <=? Z.lor (byte_val a) (byte_val b)) eqn:E;
      [apply Z.leb_le in E; lia|].
    specialize (IH t Hs' Ht').
    destruct (byte_val b =? byte_val a) eqn:Eeq.
    + apply Z.eqb_eq in Eeq. rewrite Eeq, IH. split; [intros ->; reflexivity|].
      intros [= H]. exact H.
    + apply Z.eqb_neq in Eeq.
      destruct ((65 <=? Z.min (byte_val a) (byte_val b)) &&
                (Z.min (byte_val a) (byte_val b) <=? 90) &&
                (Z.max (byte_val a) (byte_val b) =?
                 Z.min (byte_val a) (byte_val b) + 97 - 65)) eqn:Ec.
      * apply andb_true_iff in Ec as [Ec E3]. apply andb_true_iff in Ec as [E1 E2].
        apply Z.leb_le in E1, E2. apply Z.eqb_eq in E3.
        rewrite IH.
        assert (fold_byte (byte_val a) = fold_byte (byte_val b)) as ->.
        { unfold fold_byte.
          destruct (65 <=? byte_val a) eqn:A1; destruct (byte_val a <=? 90) eqn:A2;
            destruct (65 <=? byte_val b) eqn:B1; destruct (byte_val b <=? 90) eqn:B2;
            simpl; lia. }
        split; [intros ->; reflexivity|]. intros [= H]. exact H.
      * split; [discriminate|]. intros [= Hh _]. exfalso. unfold fold_byte in Hh.
        apply andb_false_iff in Ec as [Ec|E3];
          [apply andb_false_iff in Ec as [E1|E2]|].
        all: destruct (65 <=? byte_val a) eqn:A1; destruct (byte_val a <=? 90) eqn:A2;
          destruct (65 <=? byte_val b) eqn:B1; destruct (byte_val b <=? 90) eqn:B2;
          simpl in Hh; lia.
Qed.

(** ** Construction *)

Section Construction.

Context `{UF : UnicodeFold} `{FC : FloatConv} {R : Type} `{RD : Reader R}.

Lemma find_header_spec hs key : forall k0,
  0 <= k0 ->
  (find_header hs key k0 = -1 /\ no_match hs key) \/
  (exists n, find_header hs key k0 = k0 + Z.of_nat n /\ first_match hs key n).
Proof.
  induction hs as [|h hs IH]; intros k0 Hk0.
  - left. split; [reflexivity|]. intros j h Hj. rewrite lookup_nil in Hj. discriminate.
  - simpl. destruct (GoStrings.EqualFold h key) eqn:E.
    + right. exists 0%nat. split; [lia|]. split.
      * exists h. split; [reflexivity | exact E].
      * intros j h' Hj. lia.
    + destruct (IH (k0 + 1)) as [[H1 H2] | (n & H1 & [(h1 & Hh1 & Eh1) Hlt])]; [lia|..].
      * left. split; [exact H1|].
        intros [|j] h' Hj; simpl in Hj.
        -- injection Hj as <-. exact E.
        -- exact (H2 j h' Hj).
      * right. exists (S n). split; [lia|]. split.
        -- exists h1. split; [exact Hh1 | exact Eh1].
        -- intros [|j] h' Hj Hl; simpl in Hl.
           ++ injection Hl as <-. exact E.
           ++ apply (Hlt j h'); [lia | exact Hl].
Qed.

Lemma first_match_unique hs key k1 k2 :
  first_match hs key k1 -> first_match hs key k2 -> k1 = k2.
Proof.
  intros [(h1 & Hh1 & E1) L1] [(h2 & Hh2 & E2) L2].
  destruct (lt_eq_lt_dec k1 k2) as [[Hlt|Heq]|Hgt]; [|exact Heq|].
  - specialize (L2 k1 h1 Hlt Hh1). congruence.
  - specialize (L1 k2 h2 Hgt Hh2). congruence.
Qed.

Lemma first_match_not_no_match hs key k :
  first_match hs key k -> no_match hs key -> False.
Proof.
  intros [(h & Hh & E) _] Hno. specialize (Hno k h Hh). congruence.
Qed.

(** The column [find_header] answers: the first match, or -1 without one. *)
Lemma find_header_first hs key k :
  first_match hs key k -> find_header hs key 0 = Z.of_nat k.
Proof.
  intros Hk. destruct (find_header_spec hs key 0) as [[_ Hno]|(n & Hn & Hfm)]; [lia|..].
  - destruct (first_match_not_no_match _ _ _ Hk Hno).
  - rewrite Hn. rewrite (first_match_unique _ _ _ _ Hk Hfm). lia.
Qed.

Lemma find_header_none hs key :
  no_match hs key -> find_header hs key 0 = -1.
Proof.
  intros Hno. destruct (find_header_spec hs key 0) as [[H _]|(n & _ & Hfm)]; [lia|exact H|].
  destruct (first_match_not_no_match _ _ _ Hfm Hno).
Qed.

Lemma same_cursor_refl (this : ReadIter R) : same_cursor this this.
Proof. repeat split. Qed.

Lemma same_cursor_set_plan (this this0 : ReadIter R) i kind itag val :
  same_cursor this (set_plan this0 i kind itag val) -> same_cursor this this0.
Proof.
  unfold same_cursor. simpl. rewrite !length_insert. tauto.
Qed.

Lemma plan_entry_set_plan_ne (this : ReadIter R) i j kind itag val :
  i <> j -> plan_entry (set_plan this i kind itag val) j = plan_entry this j.
Proof.
  intros Hne. unfold plan_entry. simpl.
  rewrite !list_lookup_insert_ne by exact Hne. reflexivity.
Qed.

Lemma plan_entry_set_plan_eq (this : ReadIter R) i kind itag val :
  (i < length (kinds this))%nat -> (i < length (tags this))%nat ->
  (i < length (fields this))%nat ->
  plan_entry (set_plan this i kind itag val) i = (Some kind, Some itag, Some val).
Proof.
  intros H1 H2 H3. unfold plan_entry. simpl.
  rewrite !list_lookup_insert_eq by assumption. reflexivity.
Qed.

(** What the loop over the fields has done when it ends without error. *)
Lemma NewReadIter_loop_inv rest : forall (this0 : ReadIter R) i this,
  NewReadIter_loop this0 i rest = (Some this, None) ->
  (i + length rest <= length (kinds this0))%nat ->
  (i + length rest <= length (tags this0))%nat ->
  (i + length rest <= length (fields this0))%nat ->
  same_cursor this this0 /\
  (forall j, (j < i)%nat -> plan_entry this j = plan_entry this0 j) /\
  (forall j f, rest !! j = Some f ->
     plan_entry this (i + j) =
       planned (Headers this0) (i + j) f (plan_entry this0 (i + j))).
Proof.
  induction rest as [|f0 rest IH]; intros this0 i this Hrun Hk Ht Hf.
  - simpl in Hrun. injection Hrun as <-.
    split; [apply same_cursor_refl|]. split; [reflexivity|].
    intros j f Hj. rewrite lookup_nil in Hj. discriminate.
  - simpl in Hrun, Hk, Ht, Hf.
    destruct (find_header (Headers this0) (lookup_tag f0) 0 =? -1) eqn:Hm.
    + destruct (IH this0 (S i) this Hrun) as (Hc & Hlt & Hge); [lia..|].
      split; [exact Hc|]. split.
      * intros j Hj. apply Hlt. lia.
      * intros [|j] f Hj; simpl in Hj.
        -- injection Hj as <-. rewrite Nat.add_0_r. unfold planned. rewrite Hm.
           apply Hlt. lia.
        -- replace (i + S j)%nat with (S i + j)%nat by lia. apply Hge. exact Hj.
    + destruct (classify i f0) as [[kind val]|] eqn:Hcl; [|discriminate].
      destruct (IH _ (S i) this Hrun) as (Hc & Hlt & Hge);
        [simpl; rewrite length_insert; lia..|].
      split; [exact (same_cursor_set_plan _ _ _ _ _ _ Hc)|]. split.
      * intros j Hj. rewrite Hlt by lia. apply plan_entry_set_plan_ne. lia.
      * intros [|j] f Hj; simpl in Hj.
        -- injection Hj as <-. rewrite Nat.add_0_r. unfold planned. rewrite Hm, Hcl.
           rewrite Hlt by lia. apply plan_entry_set_plan_eq; lia.
        -- replace (i + S j)%nat with (S i + j)%nat by lia.
           rewrite (Hge j f Hj). simpl.
           rewrite plan_entry_set_plan_ne by lia. reflexivity.
Qed.

(** The session [NewReadIter] returns: the header is the first row read,
    the cursor is at line 1 with no error, and the plan has one entry for
    each declared field, the entry of field [j] at position [j]. *)
Lemma NewReadIter_inv rdr (ps : Target) (this : ReadIter R) :
  NewReadIter rdr ps = (Some this, None) ->
  Read rdr = ((Headers this, None), Reader_ this) /\
  Error this = None /\ Line this = 1 /\ Column this = 0 /\
  length (kinds this) = length ps /\
  length (tags this) = length ps /\
  length (fields this) = length ps /\
  (forall j f, ps !! j = Some f ->
     plan_entry this j = planned (Headers this) j f placeholder).
Proof.
  unfold NewReadIter. destruct (Read rdr) as [[hdr err] rdr'] eqn:Hread.
  destruct err as [e|]; [discriminate|]. intros Hrun.
  apply NewReadIter_loop_inv in Hrun; simpl; rewrite ?length_replicate; try lia.
  destruct Hrun as ((H1 & H2 & H3 & H4 & H5 & H6 & H7 & H8) & _ & Hge).
  simpl in H1, H2, H3, H4, H5, H6, H7, H8, Hge.
  rewrite ?length_replicate in H6. rewrite ?length_replicate in H7.
  rewrite ?length_replicate in H8.
  rewrite H1, H2. repeat split; try assumption.
  intros j f Hj. rewrite (Hge j f Hj).
  pose proof (lookup_lt_Some _ _ _ Hj) as Hlt.
  unfold plan_entry. simpl. rewrite !lookup_replicate_2 by exact Hlt. reflexivity.
Qed.

Lemma Replace_as_map s old new :
  GoStrings.Replace s old new =
    string_of_list_ascii
      (List.map (fun c : ascii => if Ascii.eqb c old then new else c)
                (list_ascii_of_string s)).
Proof.
  induction s as [|a s IH]; simpl; [reflexivity|]. rewrite IH. reflexivity.
Qed.

Lemma Replace_absent s old new :
  GoStrings.Contains s old = false -> GoStrings.Replace s old new = s.
Proof.
  induction s as [|a s IH]; simpl; [reflexivity|].
  destruct (Ascii.eqb a old); [discriminate|]. intros H. rewrite (IH H). reflexivity.
Qed.

(** The key the code looks a field up by is the key of the specification:
    the test for an underscore before the replacement changes nothing. *)
Lemma lookup_tag_spec (f : Field) : lookup_tag f = spec_lookup_key f.
Proof.
  unfold lookup_tag, spec_lookup_key.
  destruct (Tag f) as [|c t]; simpl; [|reflexivity].
  rewrite <- Replace_as_map.
  destruct (GoStrings.Contains (Name f) "_") eqn:E; [reflexivity|].
  symmetry. apply Replace_absent. exact E.
Qed.

(** When the loop ends without error every field that found a column was
    given a kind. *)
Lemma NewReadIter_loop_classified rest : forall (this0 : ReadIter R) i this,
  NewReadIter_loop this0 i rest = (Some this, None) ->
  forall j f, rest !! j = Some f ->
    find_header (Headers this0) (lookup_tag f) 0 <> -1 ->
    classify (i + j) f <> None.
Proof.
  induction rest as [|f0 rest IH]; intros this0 i this Hrun j f Hj Hm.
  - rewrite lookup_nil in Hj. discriminate.
  - simpl in Hrun.
    destruct (find_header (Headers this0) (lookup_tag f0) 0 =? -1) eqn:Hm0.
    + destruct j as [|j]; simpl in Hj.
      * injection Hj as <-. apply Z.eqb_eq in Hm0. contradiction.
      * replace (i + S j)%nat with (S i + j)%nat by lia.
        exact (IH this0 (S i) this Hrun j f Hj Hm).
    + destruct (classify i f0) as [[kind val]|] eqn:Hcl; [|discriminate].
      destruct j as [|j]; simpl in Hj.
      * injection Hj as <-. rewrite Nat.add_0_r. congruence.
      * replace (i + S j)%nat with (S i + j)%nat by lia.
        exact (IH _ (S i) this Hrun j f Hj Hm).
Qed.

(** The plan entry of a field that found a column. *)
Lemma NewReadIter_matched rdr (ps : Target) (this : ReadIter R) i f k :
  NewReadIter rdr ps = (Some this, None) ->
  ps !! i = Some f ->
  first_match (Headers this) (lookup_tag f) k ->
  exists kind val,
    classify i f = Some (kind, val) /\
    plan_entry this i = (Some kind, Some (Z.of_nat k), Some val).
Proof.
  intros Hnew Hf Hk.
  pose proof (NewReadIter_inv _ _ _ Hnew) as (Hread & _ & _ & _ & _ & _ & _ & Hplan).
  pose proof (find_header_first _ _ _ Hk) as Hfind.
  assert (classify i f <> None) as Hcl.
  { unfold NewReadIter in Hnew. rewrite Hread in Hnew.
    apply (NewReadIter_loop_classified _ _ _ _ Hnew i f Hf). simpl. lia. }
  rewrite (Hplan i f Hf). unfold planned. rewrite Hfind.
  destruct (Z.of_nat k =? -1) eqn:E; [apply Z.eqb_eq in E; lia|].
  destruct (classify i f) as [[kind val]|]; [|congruence].
  exists kind, val. split; reflexivity.
Qed.

(** The plan entry of a field that found no column. *)
Lemma NewReadIter_unmatched rdr (ps : Target) (this : ReadIter R) i f :
  NewReadIter rdr ps = (Some this, None) ->
  ps !! i = Some f ->
  no_match (Headers this) (lookup_tag f) ->
  plan_entry this i = placeholder.
Proof.
  intros Hnew Hf Hno.
  pose proof (NewReadIter_inv _ _ _ Hnew) as (_ & _ & _ & _ & _ & _ & _ & Hplan).
  rewrite (Hplan i f Hf). unfold planned.
  rewrite (find_header_none _ _ Hno). reflexivity.
Qed.

(** C6.  In a session that [NewReadIter] returns, the header is the first
    row read from the source, and a declared field is bound to the first
    header position whose name equals its lookup key up to case: the
    explicit annotation as it is when there is one, whatever the name of the
    field would match, else the name of the field with every underscore
    turned into a space. *)
Theorem NewReadIter_resolves rdr (ps : Target) (this : ReadIter R) i f k :
  NewReadIter rdr ps = (Some this, None) ->
  ps !! i = Some f ->
  first_match (Headers this) (spec_lookup_key f) k ->
  fst (fst (Read rdr)) = Headers this /\
  tags this !! i = Some (Z.of_nat k).
Proof.
  intros Hnew Hf Hk. rewrite <- lookup_tag_spec in Hk.
  destruct (NewReadIter_matched _ _ _ _ _ _ Hnew Hf Hk) as (kind & val & _ & He).
  pose proof (NewReadIter_inv _ _ _ Hnew) as (Hread & _).
  rewrite Hread. split; [reflexivity|].
  unfold plan_entry in He. congruence.
Qed.

End Construction.

(** ** Decoding *)

Section Decoding.

Context `{UF : UnicodeFold} `{FC : FloatConv} {R : Type} `{RD : Reader R}.

Lemma index_lookup {A : Type} (s : list A) (n : nat) x :
  s !! n = Some x -> index s (Z.of_nat n) = Returns x.
Proof.
  intros Hx. pose proof (lookup_lt_Some _ _ _ Hx) as Hlt. unfold index.
  assert ((Z.of_nat n <? 0) = false) as -> by (apply Z.ltb_ge; lia).
  assert ((Z.of_nat (length s) <=? Z.of_nat n) = false) as -> by (apply Z.leb_gt; lia).
  simpl. rewrite Nat2Z.id, Hx. reflexivity.
Qed.

Lemma index_outside {A : Type} (s : list A) (i : Z) :
  i < 0 \/ Z.of_nat (length s) <= i ->
  index s i = Panics (index_out_of_range i (Z.of_nat (length s))).
Proof.
  intros H. unfold index.
  destruct (i <? 0) eqn:E1; [reflexivity|].
  destruct (Z.of_nat (length s) <=? i) eqn:E2; [reflexivity|].
  apply Z.ltb_ge in E1. apply Z.leb_gt in E2. lia.
Qed.

Lemma index_Returns_inv {A : Type} (s : list A) (i : Z) x :
  index s i = Returns x ->
  0 <= i < Z.of_nat (length s) /\ s !! Z.to_nat i = Some x.
Proof.
  unfold index.
  destruct (i <? 0) eqn:E1; [discriminate|].
  destruct (Z.of_nat (length s) <=? i) eqn:E2; [discriminate|]. simpl.
  apply Z.ltb_ge in E1. apply Z.leb_gt in E2.
  destruct (s !! Z.to_nat i) as [y|]; [|discriminate].
  intros [= ->]. split; [lia | reflexivity].
Qed.

Lemma index_Panics_inv {A : Type} (s : list A) (i : Z) p :
  index s i = Panics p ->
  p = index_out_of_range i (Z.of_nat (length s)) /\
  (i < 0 \/ Z.of_nat (length s) <= i).
Proof.
  unfold index.
  destruct (i <? 0) eqn:E1.
  { intros [= <-]. apply Z.ltb_lt in E1. split; [reflexivity | lia]. }
  destruct (Z.of_nat (length s) <=? i) eqn:E2.
  { intros [= <-]. apply Z.leb_le in E2. split; [reflexivity | lia]. }
  simpl. apply Z.ltb_ge in E1. apply Z.leb_gt in E2.
  destruct (s !! Z.to_nat i) as [y|] eqn:Hy; [discriminate|].
  apply lookup_ge_None in Hy. lia.
Qed.


(** The kind and the handle [NewReadIter] gives a field fit the field. *)
Lemma classify_typed (ps : Target) j f kind val :
  ps !! j = Some f -> classify j f = Some (kind, val) ->
  entry_typed j kind val ps.
Proof.
  intros Hf Hcl. unfold classify in Hcl.
  destruct (addr_is_Value f) as [v|] eqn:Ha.
  { injection Hcl as <- <-. revert Ha. unfold addr_is_Value.
    destruct (Val f) as [| | | |w| |] eqn:HV; intros Ha; try discriminate.
    injection Ha as ->. exists f, v. auto. }
  destruct (Kind f) eqn:HK;
    try (injection Hcl as <- <-; split; [reflexivity|];
         solve [ exists f; rewrite HK; auto
               | eexists f, _; rewrite HK; simpl; auto 7 ]).
  all: destruct (self_is_Value f) as [v|] eqn:Hs; [|discriminate];
    injection Hcl as <- <-; revert Hs; unfold self_is_Value;
    destruct (Val f) as [| | | | |[w|]|] eqn:HV; intros Hs; try discriminate;
    injection Hs as ->; exists f, v; auto.
Qed.

Lemma NewReadIter_typed rdr (ps : Target) (this : ReadIter R) :
  NewReadIter rdr ps = (Some this, None) -> plan_typed this ps.
Proof.
  intros Hnew.
  pose proof (NewReadIter_inv _ _ _ Hnew) as (_ & _ & _ & _ & Hk & Ht & Hf & Hplan).
  split; [congruence|]. split; [congruence|].
  intros j kind f Hkind Hfld.
  pose proof (lookup_lt_Some _ _ _ Hkind) as Hlt. rewrite Hk in Hlt.
  destruct (lookup_lt_is_Some_2 ps j Hlt) as [g Hg].
  specialize (Hplan j g Hg). unfold plan_entry in Hplan. rewrite Hkind, Hfld in Hplan.
  unfold planned in Hplan.
  destruct (find_header (Headers this) (lookup_tag g) 0 =? -1).
  { injection Hplan as -> _ ->. reflexivity. }
  destruct (classify j g) as [[kind' val']|] eqn:Hcl.
  - injection Hplan as -> _ ->. exact (classify_typed _ _ _ _ _ Hg Hcl).
  - injection Hplan as -> _ ->. reflexivity.
Qed.

Lemma entry_typed_ext j kind f (rec rec' : Target) :
  rec' !! j = rec !! j -> entry_typed j kind f rec -> entry_typed j kind f rec'.
Proof.
  intros Heq. destruct kind; simpl; rewrite ?Heq; tauto.
Qed.


(** The [switch] on an entry that fits the target: no panic, the field of
    the entry is the only one written, and the entry still fits. *)
Lemma convert_typed j kind f vals (rec : Target) :
  entry_typed j kind f rec ->
  exists rec' err',
    convert kind f vals rec None = Returns (rec', err') /\
    length rec' = length rec /\
    (forall i, i <> j -> rec' !! i = rec !! i) /\
    entry_typed j kind f rec' /\
    (kind = none_k -> rec' = rec /\ err' = None).
Proof.
  destruct kind; simpl.
  - intros ->. exists rec, None. repeat split.
  - intros (-> & fld & Hfld & HK).
    pose proof (lookup_lt_Some _ _ _ Hfld) as Hlt.
    unfold SetString, settable_field. rewrite Hfld, HK.
    eexists _, _. split; [reflexivity|]. split; [apply length_insert|]. split.
    + intros i Hi. apply list_lookup_insert_ne. congruence.
    + split; [|discriminate]. split; [reflexivity|].
      eexists. rewrite list_lookup_insert_eq by exact Hlt. split; [reflexivity | exact HK].
  - intros (-> & fld & bits & Hfld & HK & Hb).
    pose proof (lookup_lt_Some _ _ _ Hfld) as Hlt.
    destruct (Strconv.ParseInt (if String.eqb vals "" then "0" else vals) 0) as [ival err].
    unfold SetInt, settable_field. rewrite Hfld, HK.
    eexists _, _. split; [reflexivity|]. split; [apply length_insert|]. split.
    + intros i Hi. apply list_lookup_insert_ne. congruence.
    + split; [|discriminate]. split; [reflexivity|].
      eexists _, bits. rewrite list_lookup_insert_eq by exact Hlt.
      split; [reflexivity|]. split; [exact HK | exact Hb].
  - intros (-> & fld & Hfld & HK).
    pose proof (lookup_lt_Some _ _ _ Hfld) as Hlt.
    destruct (ParseFloat vals 0) as [fval err].
    unfold SetFloat, settable_field. rewrite Hfld.
    destruct HK as [HK|HK]; rewrite HK;
      (eexists _, _; split; [reflexivity|]; split; [apply length_insert|]; split;
       [ intros i Hi; apply list_lookup_insert_ne; congruence
       | split; [|discriminate]; split; [reflexivity|];
         eexists; rewrite list_lookup_insert_eq by exact Hlt;
         split; [reflexivity | simpl; tauto] ]).
  - intros (-> & fld & bits & Hfld & HK).
    pose proof (lookup_lt_Some _ _ _ Hfld) as Hlt.
    destruct (Strconv.ParseUint vals 0) as [uval err].
    unfold SetUint, settable_field. rewrite Hfld, HK.
    eexists _, _. split; [reflexivity|]. split; [apply length_insert|]. split.
    + intros i Hi. apply list_lookup_insert_ne. congruence.
    + split; [|discriminate]. split; [reflexivity|].
      eexists _, bits. rewrite list_lookup_insert_eq by exact Hlt.
      split; [reflexivity | exact HK].
  - intros (fld & v & Hfld & Hcase).
    pose proof (lookup_lt_Some _ _ _ Hfld) as Hlt.
    destruct (call_Set v vals) as [v' ok] eqn:Hset.
    destruct Hcase as [[-> HV]|[-> HV]]; unfold Interface_Value, addr_is_Value, self_is_Value;
      rewrite Hfld, HV, Hset;
      (eexists _, _; split; [reflexivity|]; split; [apply length_insert|]; split;
       [ intros i Hi; apply list_lookup_insert_ne; congruence
       | split; [|discriminate];
         eexists _, v'; rewrite list_lookup_insert_eq by exact Hlt;
         split; [reflexivity|]; unfold store_receiver; rewrite HV; simpl; tauto ]).
Qed.

Lemma plan_typed_convert (this : ReadIter R) (rec rec' : Target) j kind f :
  plan_typed this rec ->
  kinds this !! j = Some kind -> fields this !! j = Some f ->
  (forall i, i <> j -> rec' !! i = rec !! i) ->
  entry_typed j kind f rec' ->
  plan_typed this rec'.
Proof.
  intros (Hk & Hf & Hall) Hkind Hfld Hframe Hj.
  split; [exact Hk|]. split; [exact Hf|].
  intros i kind' f' Hkind' Hfld'.
  destruct (decide (i = j)) as [->|Hne].
  - assert (kind' = kind) as -> by congruence.
    assert (f' = f) as -> by congruence. exact Hj.
  - apply (entry_typed_ext _ _ _ rec); [apply Hframe; exact Hne|].
    exact (Hall i kind' f' Hkind' Hfld').
Qed.


Lemma in_row_index row c :
  in_row row c -> exists vals, index row c = Returns vals.
Proof.
  intros [H0 H1]. unfold index.
  assert ((c <? 0) = false) as -> by (apply Z.ltb_ge; lia).
  assert ((Z.of_nat (length row) <=? c) = false) as -> by (apply Z.leb_gt; lia).
  simpl. destruct (lookup_lt_is_Some_2 row (Z.to_nat c)) as [v Hv]; [lia|].
  rewrite Hv. eauto.
Qed.

(** The loop of [Get] on a plan that fits the target, from entry [fi] on:
    it writes to the fields of the entries it visits and to no other; it
    returns true when every column indexes the row and converts, false at
    the first column that indexes the row and fails to convert, and panics
    at the first column outside the row, the session left as it was. *)
Lemma Get_loop_typed (this : ReadIter R) row rest : forall fi (rec : Target),
  plan_typed this rec ->
  (fi + length rest <= length (tags this))%nat ->
  exists o this' rec',
    Get_loop this row fi rest rec None = (o, this', rec') /\
    plan_typed this rec' /\
    length rec' = length rec /\
    (forall i, (i < fi)%nat \/ (fi + length rest <= i)%nat -> rec' !! i = rec !! i) /\
    (forall i, kinds this !! i = Some none_k -> rec' !! i = rec !! i) /\
    match o with
    | Returns true =>
        this' = this /\ forall j c, rest !! j = Some c -> in_row row c
    | Returns false =>
        exists j c e, rest !! j = Some c /\ in_row row c /\
          this' = set_Error (set_Column this (c + 1)) e /\
          forall j' c', (j' < j)%nat -> rest !! j' = Some c' -> in_row row c'
    | Panics p =>
        exists j c, rest !! j = Some c /\ ~ in_row row c /\
          p = index_out_of_range c (Z.of_nat (length row)) /\
          this' = this /\
          forall j' c', (j' < j)%nat -> rest !! j' = Some c' -> in_row row c'
    end.
Proof.
  induction rest as [|c rest IH]; intros fi rec Hty Hlen.
  - exists (Returns true), this, rec. simpl.
    split; [reflexivity|]. split; [exact Hty|]. split; [reflexivity|].
    split; [reflexivity|]. split; [reflexivity|]. split; [reflexivity|].
    intros j c Hj. rewrite lookup_nil in Hj. discriminate.
  - simpl in Hlen. simpl Get_loop.
    destruct (index row c) as [vals|p] eqn:Hidx.
    + pose proof Hty as (Hk & Hf & Hall).
      destruct (lookup_lt_is_Some_2 (kinds this) fi) as [kind Hkind]; [lia|].
      destruct (lookup_lt_is_Some_2 (fields this) fi) as [f Hfld]; [lia|].
      rewrite (index_lookup _ _ _ Hfld), (index_lookup _ _ _ Hkind).
      destruct (convert_typed fi kind f vals rec (Hall _ _ _ Hkind Hfld))
        as (rec1 & err1 & Hconv & Hlen1 & Hframe & Hent & Hnone).
      rewrite Hconv.
      pose proof (plan_typed_convert this rec rec1 fi kind f Hty Hkind Hfld Hframe Hent)
        as Hty1.
      assert (in_row row c) as Hin by exact (proj1 (index_Returns_inv _ _ _ Hidx)).
      assert (forall i, kinds this !! i = Some none_k -> rec1 !! i = rec !! i) as Hn1.
      { intros i Hi. destruct (decide (i = fi)) as [->|Hne].
        - assert (kind = none_k) as -> by congruence.
          destruct (Hnone eq_refl) as [-> _]. reflexivity.
        - apply Hframe. exact Hne. }
      destruct err1 as [e|].
      * exists (Returns false), (set_Error (set_Column this (c + 1)) e), rec1.
        split; [reflexivity|]. split; [exact Hty1|]. split; [exact Hlen1|]. split.
        { intros i Hi. simpl in Hi. apply Hframe. lia. }
        split; [exact Hn1|].
        exists 0%nat, c, e. split; [reflexivity|]. split; [exact Hin|].
        split; [reflexivity|]. intros j' c' Hj'. lia.
      * destruct (IH (S fi) rec1 Hty1) as (o & this' & rec' & Hrun & Hty' & Hlen' & Hfr' & Hn' & Ho);
          [lia|].
        exists o, this', rec'. split; [exact Hrun|]. split; [exact Hty'|].
        split; [congruence|]. split.
        { intros i Hi. simpl in Hi. rewrite Hfr' by lia. apply Hframe. lia. }
        split.
        { intros i Hi. rewrite (Hn' i Hi). exact (Hn1 i Hi). }
        destruct o as [[|]|p].
        -- destruct Ho as [-> Hall']. split; [reflexivity|].
           intros [|j] c' Hj; simpl in Hj.
           ++ injection Hj as <-. exact Hin.
           ++ exact (Hall' j c' Hj).
        -- destruct Ho as (j & c' & e & Hj & Hc' & -> & Hbefore).
           exists (S j), c', e. split; [exact Hj|]. split; [exact Hc'|].
           split; [reflexivity|].
           intros [|j'] c'' Hlt Hj''; simpl in Hj''.
           ++ injection Hj'' as <-. exact Hin.
           ++ apply (Hbefore j' c''); [lia | exact Hj''].
        -- destruct Ho as (j & c' & Hj & Hc' & -> & -> & Hbefore).
           exists (S j), c'. split; [exact Hj|]. split; [exact Hc'|].
           split; [reflexivity|]. split; [reflexivity|].
           intros [|j'] c'' Hlt Hj''; simpl in Hj''.
           ++ injection Hj'' as <-. exact Hin.
           ++ apply (Hbefore j' c''); [lia | exact Hj''].
    + apply index_Panics_inv in Hidx as [-> Hout].
      exists (Panics (index_out_of_range c (Z.of_nat (length row)))), this, rec.
      split; [reflexivity|]. split; [exact Hty|]. split; [reflexivity|].
      split; [reflexivity|]. split; [reflexivity|].
      exists 0%nat, c. split; [reflexivity|]. split; [unfold in_row; lia|].
      split; [reflexivity|]. split; [reflexivity|]. intros j' c' Hj'. lia.
Qed.

(** What the loop does to the session, whatever the plan: nothing, but for
    the column and the error it records when it returns false. *)
Lemma Get_loop_session (this : ReadIter R) row rest :
  forall fi (rec : Target) err o this' rec',
  Get_loop this row fi rest rec err = (o, this', rec') ->
  match o with
  | Returns true => this' = this
  | Returns false => exists c e, this' = set_Error (set_Column this (c + 1)) e
  | Panics _ => this' = this
  end.
Proof.
  induction rest as [|c rest IH]; intros fi rec err o this' rec'; simpl.
  - intros [= <- <- <-]. reflexivity.
  - destruct (index row c) as [vals|p]; [|intros [= <- <- <-]; reflexivity].
    destruct (index (fields this) (Z.of_nat fi)) as [f|p];
      [|intros [= <- <- <-]; reflexivity].
    destruct (index (kinds this) (Z.of_nat fi)) as [kind|p];
      [|intros [= <- <- <-]; reflexivity].
    destruct (convert kind f vals rec err) as [[rec1 [e|]]|p].
    + intros [= <- <- <-]. exists c, e. reflexivity.
    + apply IH.
    + intros [= <- <- <-]. reflexivity.
Qed.

(** The loop over a plan cut in two. *)
Lemma Get_loop_app (this : ReadIter R) row l1 : forall l2 fi (rec : Target),
  Get_loop this row fi (l1 ++ l2) rec None =
    match Get_loop this row fi l1 rec None with
    | (Returns true, _, rec1) => Get_loop this row (fi + length l1) l2 rec1 None
    | r => r
    end.
Proof.
  induction l1 as [|c l1 IH]; intros l2 fi rec; simpl.
  - rewrite Nat.add_0_r. reflexivity.
  - destruct (index row c) as [vals|p]; [|reflexivity].
    destruct (index (fields this) (Z.of_nat fi)) as [f|p]; [|reflexivity].
    destruct (index (kinds this) (Z.of_nat fi)) as [kind|p]; [|reflexivity].
    destruct (convert kind f vals rec None) as [[rec1 [e|]]|p]; try reflexivity.
    rewrite IH. replace (S fi + length l1)%nat with (fi + S (length l1))%nat by lia.
    reflexivity.
Qed.

Lemma Get_unfold (this : ReadIter R) (rec : Target) :
  Get this rec =
    match snd (fst (Read (Reader_ this))) with
    | Some e =>
        (Returns false,
         if error_eqb e io_EOF then after_Read this else set_Error (after_Read this) e,
         rec)
    | None =>
        Get_loop (after_Read this) (fst (fst (Read (Reader_ this)))) 0%nat
                 (tags this) rec None
    end.
Proof.
  unfold Get, after_Read. destruct (Read (Reader_ this)) as [[row [e|]] rdr]; reflexivity.
Qed.

(** One call of [Get] on a plan that fits the target: the plan and the
    header stay, the plan still fits, and a field whose entry has no kind
    is not written. *)
Lemma Get_typed (this : ReadIter R) (rec : Target) :
  plan_typed this rec ->
  exists o this' rec',
    Get this rec = (o, this', rec') /\
    plan_typed this' rec' /\
    kinds this' = kinds this /\ tags this' = tags this /\
    fields this' = fields this /\ Headers this' = Headers this /\
    (forall i, kinds this !! i = Some none_k -> rec' !! i = rec !! i).
Proof.
  intros Hty. rewrite Get_unfold.
  destruct (snd (fst (Read (Reader_ this)))) as [e|].
  - eexists _, _, _. split; [reflexivity|].
    destruct (error_eqb e io_EOF); repeat split; try apply Hty.
  - destruct (Get_loop_typed (after_Read this) (fst (fst (Read (Reader_ this))))
                (tags this) 0%nat rec Hty)
      as (o & this' & rec' & Hrun & Hty' & _ & _ & Hnone & _); [simpl; lia|].
    pose proof (Get_loop_session _ _ _ _ _ _ _ _ _ Hrun) as Hs.
    exists o, this', rec'. split; [exact Hrun|].
    assert (kinds this' = kinds this /\ tags this' = tags this /\
            fields this' = fields this /\ Headers this' = Headers this) as (E1 & E2 & E3 & E4).
    { destruct o as [[|]|p]; [subst this'| destruct Hs as (c & e & ->) | subst this'];
        repeat split. }
    split.
    { destruct Hty' as (Hk & Hf & Hall). unfold plan_typed. rewrite E1, E2, E3.
      split; [exact Hk|]. split; [exact Hf | exact Hall]. }
    repeat split; try assumption.
Qed.

Lemma after_Gets_typed (this this' : ReadIter R) (rec rec' : Target) :
  after_Gets this rec this' rec' ->
  plan_typed this rec ->
  plan_typed this' rec' /\
  kinds this' = kinds this /\ tags this' = tags this /\
  fields this' = fields this /\ Headers this' = Headers this /\
  (forall i, kinds this !! i = Some none_k -> rec' !! i = rec !! i).
Proof.
  induction 1 as [this rec|this rec o this1 rec1 this2 rec2 Hget _ IH]; intros Hty.
  - repeat split; try apply Hty.
  - destruct (Get_typed this rec Hty)
      as (o' & this1' & rec1' & Hget' & Hty1 & E1 & E2 & E3 & E4 & Hn).
    rewrite Hget in Hget'. injection Hget' as <- <- <-.
    destruct (IH Hty1) as (Hty2 & F1 & F2 & F3 & F4 & Hn2).
    split; [exact Hty2|]. repeat split; try congruence.
    intros i Hi. rewrite Hn2 by congruence. apply Hn. exact Hi.
Qed.

(** A call of [Get] never clears the error of the session, and a call that
    returns true leaves it as it was. *)
Lemma Get_Error (this this' : ReadIter R) (rec rec' : Target) o :
  Get this rec = (o, this', rec') ->
  (Error this <> None -> Error this' <> None) /\
  (o = Returns true -> Error this' = Error this).
Proof.
  rewrite Get_unfold. destruct (snd (fst (Read (Reader_ this)))) as [e|].
  - intros [= <- <- <-]. split; [|discriminate].
    destruct (error_eqb e io_EOF); simpl; [tauto | discriminate].
  - intros Hrun. apply Get_loop_session in Hrun.
    destruct o as [[|]|p]; [subst this'| destruct Hrun as (c & e & ->) | subst this'];
      simpl; split; try tauto; discriminate.
Qed.


Lemma looping_after_Gets (this this' : ReadIter R) (rec rec' : Target) :
  looping this rec this' rec' -> after_Gets this rec this' rec'.
Proof.
  induction 1 as [this rec|this rec this1 rec1 this2 rec2 Hget _ IH].
  - apply after_no_Get.
  - exact (after_one_more _ _ _ _ _ _ _ Hget IH).
Qed.

(** The call of [Get] at entry [fi], the entries before it decoded: what
    the [switch] answers decides how it goes on. *)
Lemma Get_at_entry (this : ReadIter R) (rec rec1 : Target) row rdr' fi ci vals kind f :
  Read (Reader_ this) = ((row, None), rdr') ->
  decodes_upto (after_Read this) row fi rec rec1 ->
  tags this !! fi = Some ci ->
  kinds this !! fi = Some kind -> fields this !! fi = Some f ->
  index row ci = Returns vals ->
  Get this rec =
    match convert kind f vals rec1 None with
    | Panics p => (Panics p, after_Read this, rec1)
    | Returns (rec2, Some e) =>
        (Returns false, set_Error (set_Column (after_Read this) (ci + 1)) e, rec2)
    | Returns (rec2, None) =>
        Get_loop (after_Read this) row (S fi) (drop (S fi) (tags this)) rec2 None
    end.
Proof.
  intros Hread Hupto Htag Hkind Hfld Hidx.
  rewrite Get_unfold, Hread. simpl fst; simpl snd. cbv iota.
  unfold decodes_upto in Hupto. change (tags (after_Read this)) with (tags this) in Hupto.
  assert (Get_loop (after_Read this) row 0 (tags this) rec None =
          Get_loop (after_Read this) row 0
            (take fi (tags this) ++ ci :: drop (S fi) (tags this)) rec None) as ->.
  { f_equal. symmetry. apply take_drop_middle. exact Htag. }
  rewrite Get_loop_app, Hupto.
  pose proof (lookup_lt_Some _ _ _ Htag) as Hlt.
  rewrite length_take_le by lia. simpl Get_loop. rewrite Hidx.
  change (fields (after_Read this)) with (fields this).
  change (kinds (after_Read this)) with (kinds this).
  rewrite (index_lookup _ _ _ Hfld), (index_lookup _ _ _ Hkind).
  destruct (convert kind f vals rec1 None) as [[rec2 [e|]]|p]; reflexivity.
Qed.

(** The plan still fits the target once the entries before [fi] are
    decoded. *)
Lemma decodes_upto_typed (this : ReadIter R) (rec rec1 : Target) row fi :
  plan_typed this rec ->
  decodes_upto (after_Read this) row fi rec rec1 ->
  plan_typed this rec1 /\
  forall i, (fi <= i)%nat -> rec1 !! i = rec !! i.
Proof.
  intros Hty Hupto. unfold decodes_upto in Hupto.
  change (tags (after_Read this)) with (tags this) in Hupto.
  destruct (Get_loop_typed (after_Read this) row (take fi (tags this)) 0%nat rec Hty)
    as (o & t' & r' & Hrun & Hty' & _ & Hframe & _).
  { rewrite length_take. simpl. lia. }
  rewrite Hupto in Hrun. injection Hrun as <- <- <-.
  split; [exact Hty'|]. intros i Hi. apply Hframe. right.
  rewrite length_take. lia.
Qed.




(** The [switch] on a custom field: the receiver is written back and [err]
    is left alone, whatever [Set] answered. *)
Lemma convert_value j f vals (rec : Target) :
  entry_typed j value_k f rec ->
  exists fld v, rec !! j = Some fld /\
    (Val fld = Custom v \/ Val fld = Dynamic (Some v)) /\
    convert value_k f vals rec None =
      Returns (<[j := store_receiver fld (fst (call_Set v vals))]> rec, None).
Proof.
  intros (fld & v & Hfld & Hcase). exists fld, v. split; [exact Hfld|].
  unfold convert, Interface_Value, addr_is_Value, self_is_Value.
  destruct Hcase as [[-> HV]|[-> HV]]; rewrite Hfld, HV;
    destruct (call_Set v vals) as [v' ok]; (split; [tauto | reflexivity]).
Qed.


Lemma classify_None i (f : Field) :
  ~ In (Kind f) primitive_kinds ->
  addr_is_Value f = None -> self_is_Value f = None ->
  classify i f = None.
Proof.
  intros Hk Ha Hs. unfold classify. rewrite Ha, Hs.
  destruct (Kind f); try reflexivity; exfalso; apply Hk; simpl; tauto.
Qed.

Lemma classify_index i j (f : Field) :
  classify i f = None -> classify j f = None.
Proof.
  unfold classify. destruct (addr_is_Value f); [discriminate|].
  destruct (Kind f); try discriminate; destruct (self_is_Value f); try discriminate;
    reflexivity.
Qed.

Lemma matched_found hs key k h :
  hs !! k = Some h -> GoStrings.EqualFold h key = true ->
  find_header hs key 0 <> -1.
Proof.
  intros Hh E. destruct (find_header_spec hs key 0) as [[_ Hno]|(n & Hn & _)]; [lia| |lia].
  specialize (Hno k h Hh). congruence.
Qed.

(** One matched field of a type that cannot be converted makes the loop
    of [NewReadIter] fail, wherever it stands. *)
Lemma NewReadIter_loop_fails rest : forall (this0 : ReadIter R) i j f,
  rest !! j = Some f ->
  find_header (Headers this0) (lookup_tag f) 0 <> -1 ->
  classify 0 f = None ->
  NewReadIter_loop this0 i rest = (None, Some type_error).
Proof.
  induction rest as [|f0 rest IH]; intros this0 i j f Hj Hm Hcl.
  - rewrite lookup_nil in Hj. discriminate.
  - simpl. destruct j as [|j]; simpl in Hj.
    + injection Hj as ->. apply Z.eqb_neq in Hm. rewrite Hm.
      rewrite (classify_index 0 i f Hcl). reflexivity.
    + destruct (find_header (Headers this0) (lookup_tag f0) 0 =? -1).
      * exact (IH this0 (S i) j f Hj Hm Hcl).
      * destruct (classify i f0) as [[kind val]|]; [|reflexivity].
        apply (IH _ (S i) j f Hj); [exact Hm | exact Hcl].
Qed.

(** The loop of [NewReadIter] ends with a session, or with the type error
    at a field that found a column. *)
Lemma NewReadIter_loop_result rest : forall (this0 : ReadIter R) i,
  (exists this, NewReadIter_loop this0 i rest = (Some this, None)) \/
  (NewReadIter_loop this0 i rest = (None, Some type_error) /\
   exists j g, rest !! j = Some g /\
     find_header (Headers this0) (lookup_tag g) 0 <> -1 /\
     classify (i + j) g = None).
Proof.
  induction rest as [|f0 rest IH]; intros this0 i; simpl.
  - left. eauto.
  - destruct (find_header (Headers this0) (lookup_tag f0) 0 =? -1) eqn:Hm.
    + destruct (IH this0 (S i)) as [Hok|(Hfail & j & g & Hj & Hg & Hcl)]; [left; exact Hok|].
      right. split; [exact Hfail|]. exists (S j), g.
      replace (i + S j)%nat with (S i + j)%nat by lia. auto.
    + destruct (classify i f0) as [[kind val]|] eqn:Hcl0.
      * destruct (IH (set_plan this0 i kind
                        (find_header (Headers this0) (lookup_tag f0) 0) val) (S i))
          as [Hok|(Hfail & j & g & Hj & Hg & Hcl)]; [left; exact Hok|].
        right. split; [exact Hfail|]. exists (S j), g.
        replace (i + S j)%nat with (S i + j)%nat by lia. auto.
      * right. split; [reflexivity|]. exists 0%nat, f0. rewrite Nat.add_0_r.
        apply Z.eqb_neq in Hm. auto.
Qed.

(** C8.  When the header is read and a declared field matches one of its
    columns, but the kind of the field is none of those the [switch] names
    and neither the pointer to the field nor the field itself is a [Value],
    [NewReadIter] returns no session and the type error. *)
Theorem NewReadIter_type_error rdr (ps : Target) hdr rdr' i f k h :
  Read rdr = ((hdr, None), rdr') ->
  ps !! i = Some f ->
  hdr !! k = Some h ->
  GoStrings.EqualFold h (spec_lookup_key f) = true ->
  ~ In (Kind f) primitive_kinds ->
  addr_is_Value f = None ->
  self_is_Value f = None ->
  NewReadIter rdr ps = (None, Some (errors_New "cannot convert this type ")).
Proof.
  intros Hread Hf Hh E Hk Ha Hs. unfold NewReadIter. rewrite Hread.
  rewrite <- lookup_tag_spec in E.
  apply (NewReadIter_loop_fails ps _ 0%nat i f Hf).
  - simpl. exact (matched_found _ _ _ _ Hh E).
  - exact (classify_None 0 f Hk Ha Hs).
Qed.

Lemma NewReadIter_tags_nonneg rdr (ps : Target) (this : ReadIter R) j c :
  NewReadIter rdr ps = (Some this, None) ->
  tags this !! j = Some c -> 0 <= c.
Proof.
  intros Hnew Hc.
  pose proof (NewReadIter_inv _ _ _ Hnew) as (_ & _ & _ & _ & _ & Ht & _ & Hplan).
  pose proof (lookup_lt_Some _ _ _ Hc) as Hlt. rewrite Ht in Hlt.
  destruct (lookup_lt_is_Some_2 ps j Hlt) as [g Hg].
  specialize (Hplan j g Hg). unfold plan_entry, planned in Hplan. rewrite Hc in Hplan.
  destruct (find_header_spec (Headers this) (lookup_tag g) 0) as [[Hm _]|(n & Hn & _)];
    [lia|..].
  - rewrite Hm in Hplan. simpl in Hplan. injection Hplan as _ -> _. lia.
  - rewrite Hn in Hplan.
    destruct (0 + Z.of_nat n =? -1); [injection Hplan as _ -> _; lia|].
    destruct (classify j g) as [[kind val]|]; injection Hplan as _ -> _; lia.
Qed.

(** C1 (as amended).  In a session that [NewReadIter] built, let [Get] read
    a row that has no field at the column of some entry [fi].  Then [Get]
    does not return true and records no fault for a column outside the row:
    either it returns false for an entry before [fi], whose column is
    inside the row (a conversion fault), or it panics with an index out of
    range at the first entry whose column is outside the row, and then the
    error and the column of the session are as they were before the call. *)
Theorem Get_short_row rdr0 (ps : Target) (this0 this : ReadIter R) (rec : Target)
    row rdr' fi ci :
  NewReadIter rdr0 ps = (Some this0, None) ->
  after_Gets this0 ps this rec ->
  Read (Reader_ this) = ((row, None), rdr') ->
  tags this !! fi = Some ci ->
  Z.of_nat (length row) <= ci ->
  exists o this' rec',
    Get this rec = (o, this', rec') /\
    match o with
    | Returns true => False
    | Returns false =>
        exists fj cj, (fj < fi)%nat /\ tags this !! fj = Some cj /\
          in_row row cj /\ Column this' = cj + 1
    | Panics p =>
        exists fj cj, (fj <= fi)%nat /\ tags this !! fj = Some cj /\
          Z.of_nat (length row) <= cj /\
          p = index_out_of_range cj (Z.of_nat (length row)) /\
          Error this' = Error this /\ Column this' = Column this
    end.
Proof.
  intros Hnew Hafter Hread Htag Hshort.
  pose proof (NewReadIter_typed _ _ _ Hnew) as Hty0.
  destruct (after_Gets_typed _ _ _ _ Hafter Hty0) as (Hty & _ & Etags & _).
  assert (~ in_row row ci) as Hout by (unfold in_row; lia).
  rewrite Get_unfold, Hread. simpl fst; simpl snd. cbv iota.
  destruct (Get_loop_typed (after_Read this) row (tags this) 0%nat rec Hty)
    as (o & this' & rec' & Hrun & _ & _ & _ & _ & Ho); [simpl; lia|].
  exists o, this', rec'. split; [exact Hrun|].
  destruct o as [[|]|p].
  - destruct Ho as [_ Hall]. exact (Hout (Hall fi ci Htag)).
  - destruct Ho as (j & c & e & Hj & Hin & -> & Hbefore).
    exists j, c. split.
    { destruct (lt_eq_lt_dec j fi) as [[Hlt|Heq]|Hgt]; [exact Hlt|..].
      - subst j. assert (c = ci) as -> by congruence. contradiction.
      - destruct (Hout (Hbefore fi ci Hgt Htag)). }
    split; [exact Hj|]. split; [exact Hin | reflexivity].
  - destruct Ho as (j & c & Hj & Hnot & -> & -> & Hbefore).
    exists j, c. split.
    { destruct (le_lt_dec j fi) as [Hle|Hgt]; [exact Hle|].
      destruct (Hout (Hbefore fi ci Hgt Htag)). }
    split; [exact Hj|]. split.
    { assert (0 <= c) as H0.
      { apply (NewReadIter_tags_nonneg rdr0 ps this0 j c Hnew). rewrite <- Etags. exact Hj. }
      unfold in_row in Hnot. lia. }
    repeat split.
Qed.

(** The loop reads the plan of the session and nothing else of it. *)
Lemma Get_loop_plan_only (this1 this2 : ReadIter R) row rest :
  fields this1 = fields this2 -> kinds this1 = kinds this2 ->
  forall fi (rec : Target) err,
    fst (fst (Get_loop this1 row fi rest rec err)) =
      fst (fst (Get_loop this2 row fi rest rec err)) /\
    snd (Get_loop this1 row fi rest rec err) =
      snd (Get_loop this2 row fi rest rec err).
Proof.
  intros Hf Hk. induction rest as [|c rest IH]; intros fi rec err; simpl; [auto|].
  rewrite Hf, Hk.
  destruct (index row c) as [vals|p]; [|auto].
  destruct (index (fields this2) (Z.of_nat fi)) as [f|p]; [|auto].
  destruct (index (kinds this2) (Z.of_nat fi)) as [kind|p]; [|auto].
  destruct (convert kind f vals rec err) as [[rec1 [e|]]|p]; simpl; auto.
Qed.

(** C3 (as amended).  An error recorded on a session is never cleared: it
    is still there after any number of further calls of [Get].  But [Get]
    does not look at it: a call on a session with an error returns what it
    would return, and writes to the target what it would write, had no
    error been recorded; so it reads and decodes the next row. *)
Theorem Error_never_cleared (this this' : ReadIter R) (rec rec' : Target) :
  Error this <> None ->
  after_Gets this rec this' rec' ->
  Error this' <> None /\
  fst (fst (Get this rec)) = fst (fst (Get (without_Error this) rec)) /\
  snd (Get this rec) = snd (Get (without_Error this) rec).
Proof.
  intros Herr Hafter. split.
  - induction Hafter as [|this rec o this1 rec1 this2 rec2 Hget _ IH]; [exact Herr|].
    apply IH. exact (proj1 (Get_Error _ _ _ _ _ Hget) Herr).
  - rewrite !Get_unfold. change (Reader_ (without_Error this)) with (Reader_ this).
    change (tags (without_Error this)) with (tags this).
    destruct (snd (fst (Read (Reader_ this)))) as [e|]; [split; reflexivity|].
    apply Get_loop_plan_only; reflexivity.
Qed.


(** A custom entry never stops the row: the answer of [Set] is dropped. *)
Lemma Get_drops_Set_answer rdr0 (ps : Target) (this0 this : ReadIter R)
    (rec rec1 : Target) row rdr' fi ci vals :
  NewReadIter rdr0 ps = (Some this0, None) ->
  after_Gets this0 ps this rec ->
  Read (Reader_ this) = ((row, None), rdr') ->
  decodes_upto (after_Read this) row fi rec rec1 ->
  tags this !! fi = Some ci ->
  kinds this !! fi = Some value_k ->
  index row ci = Returns vals ->
  exists fld v, rec1 !! fi = Some fld /\
    (Val fld = Custom v \/ Val fld = Dynamic (Some v)) /\
    Get this rec =
      Get_loop (after_Read this) row (S fi) (drop (S fi) (tags this))
               (<[fi := store_receiver fld (fst (call_Set v vals))]> rec1) None.
Proof.
  intros Hnew Hafter Hread Hupto Htag Hkind Hidx.
  pose proof (NewReadIter_typed _ _ _ Hnew) as Hty0.
  destruct (after_Gets_typed _ _ _ _ Hafter Hty0) as (Hty & _).
  destruct (decodes_upto_typed _ _ _ _ _ Hty Hupto) as [Hty1 _].
  pose proof (lookup_lt_Some _ _ _ Htag) as Hlt.
  pose proof Hty1 as (Hk & Hf & Hall).
  destruct (lookup_lt_is_Some_2 (fields this) fi) as [f Hfld]; [lia|].
  destruct (convert_value fi f vals rec1 (Hall _ _ _ Hkind Hfld))
    as (fld & v & Hfld1 & Hv & Hconv).
  exists fld, v. split; [exact Hfld1|]. split; [exact Hv|].
  rewrite (Get_at_entry this rec rec1 row rdr' fi ci vals value_k f
             Hread Hupto Htag Hkind Hfld Hidx).
  rewrite Hconv. reflexivity.
Qed.

(** C7 (as amended).  Let the header be read and let a declared field match
    none of its columns.  [NewReadIter] does not fail because of it: when it
    fails, it is with the type error, at another field, one that found a
    column.  In the session it returns the plan keeps one entry for each
    declared field, in the order of declaration: the entry of a field that
    found a column holds that column and the kind of the field, the entry
    of the field without column is the placeholder (no kind, column 0, no
    handle).  And no call of [Get] changes that field of the target. *)
Theorem unmatched_field_kept rdr0 (ps : Target) hdr rdr1 i f :
  Read rdr0 = ((hdr, None), rdr1) ->
  ps !! i = Some f ->
  no_match hdr (spec_lookup_key f) ->
  match NewReadIter rdr0 ps with
  | (Some this0, None) =>
      length (kinds this0) = length ps /\
      length (tags this0) = length ps /\
      length (fields this0) = length ps /\
      plan_entry this0 i = placeholder /\
      (forall j g k,
         ps !! j = Some g -> first_match hdr (spec_lookup_key g) k ->
         exists kind val,
           classify j g = Some (kind, val) /\
           plan_entry this0 j = (Some kind, Some (Z.of_nat k), Some val)) /\
      (forall (this : ReadIter R) rec, after_Gets this0 ps this rec -> rec !! i = Some f)
  | (None, Some e) =>
      e = type_error /\
      exists j g k,
        j <> i /\ ps !! j = Some g /\
        first_match hdr (spec_lookup_key g) k /\ classify j g = None
  | _ => False
  end.
Proof.
  intros Hread Hf Hno. rewrite <- lookup_tag_spec in Hno.
  destruct (NewReadIter rdr0 ps) as [[this0|] [e|]] eqn:Hnew.
  - unfold NewReadIter in Hnew. rewrite Hread in Hnew.
    match type of Hnew with
    | NewReadIter_loop ?t ?n ?l = _ =>
        destruct (NewReadIter_loop_result l t n) as [[x Hx]|[Hx _]];
          rewrite Hx in Hnew; discriminate
    end.
  - pose proof (NewReadIter_inv _ _ _ Hnew) as (Hread' & _ & _ & _ & Hk & Ht & Hfl & _).
    assert (Headers this0 = hdr) as Hhdr by congruence.
    rewrite <- Hhdr in Hno.
    pose proof (NewReadIter_unmatched _ _ _ _ _ Hnew Hf Hno) as Hplace.
    split; [exact Hk|]. split; [exact Ht|]. split; [exact Hfl|]. split; [exact Hplace|].
    split.
    + intros j g k Hg Hm. rewrite <- lookup_tag_spec, <- Hhdr in Hm.
      exact (NewReadIter_matched _ _ _ _ _ _ Hnew Hg Hm).
    + intros this rec Hafter.
      destruct (after_Gets_typed _ _ _ _ Hafter (NewReadIter_typed _ _ _ Hnew))
        as (_ & _ & _ & _ & _ & Hnone).
      rewrite Hnone; [exact Hf|].
      unfold plan_entry, placeholder in Hplace. congruence.
  - unfold NewReadIter in Hnew. rewrite Hread in Hnew.
    match type of Hnew with
    | NewReadIter_loop ?t ?n ?l = _ =>
        destruct (NewReadIter_loop_result l t n)
          as [[x Hx]|(Hx & j & g & Hj & Hg & Hcl)]; rewrite Hx in Hnew;
          [discriminate|]
    end.
    injection Hnew as <-. split; [reflexivity|]. simpl in Hg, Hcl.
    destruct (find_header_spec hdr (lookup_tag g) 0) as [[Hm _]|(k & _ & Hk)];
      [lia|contradiction|].
    exists j, g, k. rewrite <- lookup_tag_spec.
    split; [|split; [exact Hj|split; [exact Hk | exact Hcl]]].
    intros ->. assert (g = f) as -> by congruence.
    apply Hg. apply find_header_none. exact Hno.
  - unfold NewReadIter in Hnew. rewrite Hread in Hnew.
    match type of Hnew with
    | NewReadIter_loop ?t ?n ?l = _ =>
        destruct (NewReadIter_loop_result l t n) as [[x Hx]|[Hx _]];
          rewrite Hx in Hnew; discriminate
    end.
Qed.

(** C9.  In a session that [NewReadIter] returns, the entry of a declared
    field that matches no header column is the placeholder: kind [none_k],
    column 0, and it stays so.  When the loop of [Get] comes to that entry
    it indexes the row at 0 before it looks at the kind: on a row without
    fields that panics, on any other row the loop goes on to the next entry
    and the target is as it was.  And a call of [Get] that reads a row
    without fields panics with an index out of range, returning nothing. *)
Theorem placeholder_indexes_row rdr0 (ps : Target) (this0 : ReadIter R) i f :
  NewReadIter rdr0 ps = (Some this0, None) ->
  ps !! i = Some f ->
  no_match (Headers this0) (spec_lookup_key f) ->
  forall (this : ReadIter R) (rec : Target),
    after_Gets this0 ps this rec ->
    plan_entry this i = placeholder /\
    (forall row (rec1 : Target),
       Get_loop this row i (drop i (tags this)) rec1 None =
         match row with
         | [] => (Panics (index_out_of_range 0 0), this, rec1)
         | _ :: _ => Get_loop this row (S i) (drop (S i) (tags this)) rec1 None
         end) /\
    (forall rdr',
       Read (Reader_ this) = (([], None), rdr') ->
       exists c, Get this rec = (Panics (index_out_of_range c 0), after_Read this, rec)).
Proof.
  intros Hnew Hf Hno this rec Hafter. rewrite <- lookup_tag_spec in Hno.
  pose proof (NewReadIter_unmatched _ _ _ _ _ Hnew Hf Hno) as Hplace.
  destruct (after_Gets_typed _ _ _ _ Hafter (NewReadIter_typed _ _ _ Hnew))
    as (_ & Ek & Et & Ef & _ & _).
  assert (plan_entry this i = placeholder) as Hplace'.
  { unfold plan_entry in *. rewrite Ek, Et, Ef. exact Hplace. }
  unfold plan_entry, placeholder in Hplace'.
  assert (kinds this !! i = Some none_k) as Hkind by congruence.
  assert (tags this !! i = Some 0) as Htag by congruence.
  assert (fields this !! i = Some Reflect.ZeroValue) as Hfld by congruence.
  split; [unfold plan_entry, placeholder; congruence|]. split.
  - intros row rec1. rewrite (drop_S _ _ _ Htag). simpl Get_loop.
    destruct row as [|s row]; [reflexivity|].
    change (index (s :: row) 0) with (Returns s).
    rewrite (index_lookup _ _ _ Hfld), (index_lookup _ _ _ Hkind). reflexivity.
  - intros rdr' Hread. rewrite Get_unfold, Hread. simpl fst; simpl snd. cbv iota.
    destruct (tags this) as [|c rest] eqn:Htags; [rewrite lookup_nil in Htag; discriminate|].
    exists c. simpl Get_loop. rewrite index_outside; [reflexivity|]. simpl. lia.
Qed.

End Decoding.

(** ** More on construction *)

Section MoreConstruction.

Context `{UF : UnicodeFold} `{FC : FloatConv} {R : Type} `{RD : Reader R}.

(** An entry with a kind belongs to a field that found a column: its
    column is the first match of the field's key and its kind and handle
    are those of the field. *)
Lemma NewReadIter_bound rdr (ps : Target) (this : ReadIter R) i f kind :
  NewReadIter rdr ps = (Some this, None) ->
  ps !! i = Some f ->
  kinds this !! i = Some kind -> kind <> none_k ->
  exists k val,
    first_match (Headers this) (lookup_tag f) k /\
    classify i f = Some (kind, val) /\
    plan_entry this i = (Some kind, Some (Z.of_nat k), Some val).
Proof.
  intros Hnew Hf Hkind Hne.
  pose proof (NewReadIter_inv _ _ _ Hnew) as (_ & _ & _ & _ & _ & _ & _ & Hplan).
  specialize (Hplan i f Hf). unfold planned in Hplan.
  destruct (find_header_spec (Headers this) (lookup_tag f) 0) as [[Hm _]|(k & Hk & Hfm)];
    [lia|..].
  - rewrite Hm in Hplan. simpl in Hplan. unfold plan_entry, placeholder in Hplan.
    congruence.
  - rewrite Hk in Hplan.
    destruct (0 + Z.of_nat k =? -1) eqn:E; [apply Z.eqb_eq in E; lia|].
    destruct (classify i f) as [[kind' val]|] eqn:Hcl.
    + assert (kind' = kind) as -> by (unfold plan_entry in Hplan; congruence).
      exists k, val. split; [exact Hfm|]. split; [reflexivity|].
      rewrite Hplan, Z.add_0_l. reflexivity.
    + unfold plan_entry, placeholder in Hplan. congruence.
Qed.

(** X1.  [NewReadIter] returns a session or an error, never both and never
    neither.  The session comes with the first row of the source as its
    header, the source one read further, line 1, column 0, no error and a
    plan of one entry for each declared field.  The error is the one of the
    header read, whatever the struct, or else the type error, for a field
    that matched a header column and cannot be converted. *)
Theorem NewReadIter_outcome rdr (ps : Target) :
  match NewReadIter rdr ps with
  | (Some this, None) =>
      Read rdr = ((Headers this, None), Reader_ this) /\
      Error this = None /\ Line this = 1 /\ Column this = 0 /\
      length (kinds this) = length ps /\
      length (tags this) = length ps /\
      length (fields this) = length ps
  | (None, Some e) =>
      snd (fst (Read rdr)) = Some e \/
      (snd (fst (Read rdr)) = None /\ e = type_error /\
       exists j g k,
         ps !! j = Some g /\
         first_match (fst (fst (Read rdr))) (spec_lookup_key g) k /\
         classify j g = None)
  | _ => False
  end.
Proof.
  destruct (NewReadIter rdr ps) as [[this|] [e|]] eqn:Hnew.
  - unfold NewReadIter in Hnew. destruct (Read rdr) as [[hdr [e'|]] rdr']; [discriminate|].
    match type of Hnew with
    | NewReadIter_loop ?t ?n ?l = _ =>
        destruct (NewReadIter_loop_result l t n) as [[x Hx]|[Hx _]];
          rewrite Hx in Hnew; discriminate
    end.
  - pose proof (NewReadIter_inv _ _ _ Hnew) as (H1 & H2 & H3 & H4 & H5 & H6 & H7 & _).
    repeat split; assumption.
  - unfold NewReadIter in Hnew. destruct (Read rdr) as [[hdr [e'|]] rdr'] eqn:Hread.
    + injection Hnew as <-. left. reflexivity.
    + right. split; [reflexivity|].
      match type of Hnew with
      | NewReadIter_loop ?t ?n ?l = _ =>
          destruct (NewReadIter_loop_result l t n)
            as [[x Hx]|(Hx & j & g & Hj & Hg & Hcl)]; rewrite Hx in Hnew;
            [discriminate|]
      end.
      injection Hnew as <-. split; [reflexivity|]. simpl in Hg, Hcl.
      destruct (find_header_spec hdr (lookup_tag g) 0) as [[Hm _]|(k & _ & Hk)];
        [lia|contradiction|].
      exists j, g, k. rewrite <- lookup_tag_spec. simpl. auto.
  - unfold NewReadIter in Hnew. destruct (Read rdr) as [[hdr [e'|]] rdr']; [discriminate|].
    match type of Hnew with
    | NewReadIter_loop ?t ?n ?l = _ =>
        destruct (NewReadIter_loop_result l t n) as [[x Hx]|[Hx _]];
          rewrite Hx in Hnew; discriminate
    end.
Qed.

(** X2.  In a session that [NewReadIter] returns, the column of every
    entry with a kind is a position of the header, the first one whose
    name equals the lookup key of the entry's field up to case. *)
Theorem NewReadIter_bound_column rdr (ps : Target) (this : ReadIter R) i f kind c :
  NewReadIter rdr ps = (Some this, None) ->
  ps !! i = Some f ->
  kinds this !! i = Some kind -> kind <> none_k ->
  tags this !! i = Some c ->
  0 <= c < Z.of_nat (length (Headers this)) /\
  first_match (Headers this) (spec_lookup_key f) (Z.to_nat c).
Proof.
  intros Hnew Hf Hkind Hne Hc.
  destruct (NewReadIter_bound _ _ _ _ _ _ Hnew Hf Hkind Hne) as (k & val & Hfm & _ & He).
  unfold plan_entry in He. assert (c = Z.of_nat k) as -> by congruence.
  rewrite Nat2Z.id, <- lookup_tag_spec. split; [|exact Hfm].
  destruct Hfm as [(h & Hh & _) _]. apply lookup_lt_Some in Hh. lia.
Qed.

(** X3.  A field that matched a column and whose pointer is a [Value] is
    planned as a custom field, with the pointer as its handle, whatever its
    kind: the test for [Value] comes before the [switch] on the kind. *)
Theorem NewReadIter_custom_first rdr (ps : Target) (this : ReadIter R) i f k v :
  NewReadIter rdr ps = (Some this, None) ->
  ps !! i = Some f ->
  first_match (Headers this) (spec_lookup_key f) k ->
  Val f = Custom v ->
  plan_entry this i = (Some value_k, Some (Z.of_nat k), Some (Reflect.AddrOf i)).
Proof.
  intros Hnew Hf Hk HV. rewrite <- lookup_tag_spec in Hk.
  destruct (NewReadIter_matched _ _ _ _ _ _ Hnew Hf Hk) as (kind & val & Hcl & He).
  unfold classify, addr_is_Value in Hcl. rewrite HV in Hcl.
  injection Hcl as <- <-. exact He.
Qed.

Lemma byte_val_inj a b : byte_val a = byte_val b -> a = b.
Proof.
  unfold byte_val. intros H. apply N2Z.inj in H.
  rewrite <- (ascii_N_embedding a), <- (ascii_N_embedding b), H. reflexivity.
Qed.

Lemma bytes_Replace s :
  bytes (GoStrings.Replace s "_" " ") =
    List.map (fun b => if b =? 95 then 32 else b) (bytes s).
Proof.
  induction s as [|a s IH]; simpl; [reflexivity|]. rewrite IH. f_equal.
  destruct (Ascii.eqb a "_") eqn:E.
  - apply Ascii.eqb_eq in E. subst a. reflexivity.
  - destruct (byte_val a =? 95) eqn:E'; [|reflexivity].
    apply Z.eqb_eq in E'. change 95 with (byte_val "_") in E'.
    apply byte_val_inj in E'. subst a. discriminate.
Qed.

Lemma Contains_bytes s : GoStrings.Contains s "_" = false <-> ~ In 95 (bytes s).
Proof.
  induction s as [|a s IH]; simpl; [tauto|].
  destruct (Ascii.eqb a "_") eqn:E.
  - apply Ascii.eqb_eq in E. subst a. split; [discriminate|]. intros H. exfalso.
    apply H. left. reflexivity.
  - rewrite IH. split; [|tauto]. intros H [Ha|Hin]; [|tauto].
    change 95 with (byte_val "_") in Ha. apply byte_val_inj in Ha. subst a. discriminate.
Qed.

Lemma fold_byte_underscore b : fold_byte b = 95 <-> b = 95.
Proof.
  unfold fold_byte.
  destruct (65 <=? b) eqn:E1; destruct (b <=? 90) eqn:E2; simpl; try tauto.
  apply Z.leb_le in E1, E2. lia.
Qed.

Lemma folded_underscore s : In 95 (folded s) <-> In 95 (bytes s).
Proof.
  unfold folded. rewrite in_map_iff. split.
  - intros (b & Hb & Hin). apply (proj1 (fold_byte_underscore b)) in Hb. subst b. exact Hin.
  - intros Hin. exists 95. split; [reflexivity | exact Hin].
Qed.

(** X4.  On ASCII text matching is equality up to the case of letters: a
    field is bound to the first header position whose name, its letters
    folded, is the lookup key with its letters folded. *)
Theorem NewReadIter_ascii_match rdr (ps : Target) (this : ReadIter R) i f k h :
  NewReadIter rdr ps = (Some this, None) ->
  ps !! i = Some f ->
  is_ascii (spec_lookup_key f) ->
  Forall is_ascii (Headers this) ->
  Headers this !! k = Some h ->
  folded h = folded (spec_lookup_key f) ->
  (forall j h', (j < k)%nat -> Headers this !! j = Some h' ->
     folded h' <> folded (spec_lookup_key f)) ->
  tags this !! i = Some (Z.of_nat k).
Proof.
  intros Hnew Hf Hkey Hhdr Hh Heq Hfirst.
  assert (first_match (Headers this) (lookup_tag f) k) as Hfm.
  { rewrite lookup_tag_spec. split.
    - exists h. split; [exact Hh|]. apply EqualFold_ascii; [|exact Hkey|exact Heq].
      exact (Forall_lookup_1 _ _ _ _ Hhdr Hh).
    - intros j h' Hj Hh'. destruct (GoStrings.EqualFold h' (spec_lookup_key f)) eqn:E;
        [|reflexivity].
      apply EqualFold_ascii in E; [|exact (Forall_lookup_1 _ _ _ _ Hhdr Hh')|exact Hkey].
      destruct (Hfirst j h' Hj Hh' E). }
  destruct (NewReadIter_matched _ _ _ _ _ _ Hnew Hf Hfm) as (kind & val & _ & He).
  unfold plan_entry in He. congruence.
Qed.

(** X5.  A field without annotation is never bound to a column whose name
    has an underscore (on ASCII text): the underscores of the field's name
    are looked up as spaces, and a header written with underscores is
    reached through an annotation only. *)
Theorem untagged_field_no_underscore rdr (ps : Target) (this : ReadIter R)
    i f kind c h :
  NewReadIter rdr ps = (Some this, None) ->
  ps !! i = Some f ->
  Tag f = "" ->
  is_ascii (Name f) ->
  kinds this !! i = Some kind -> kind <> none_k ->
  tags this !! i = Some c ->
  Headers this !! Z.to_nat c = Some h ->
  is_ascii h ->
  GoStrings.Contains h "_" = false.
Proof.
  intros Hnew Hf Htag Hname Hkind Hne Hc Hh Hascii.
  destruct (NewReadIter_bound _ _ _ _ _ _ Hnew Hf Hkind Hne)
    as (k & val & [(h' & Hh' & E) _] & _ & He).
  unfold plan_entry in He. assert (c = Z.of_nat k) as -> by congruence.
  rewrite Nat2Z.id in Hh. assert (h' = h) as -> by congruence.
  assert (lookup_tag f = GoStrings.Replace (Name f) "_" " ") as Hkey.
  { unfold lookup_tag. rewrite Htag. simpl.
    destruct (GoStrings.Contains (Name f) "_") eqn:Ec; [reflexivity|].
    symmetry. apply Replace_absent. exact Ec. }
  rewrite Hkey in E.
  assert (is_ascii (GoStrings.Replace (Name f) "_" " ")) as Hka.
  { unfold is_ascii in *. rewrite bytes_Replace. apply List.Forall_map.
    eapply List.Forall_impl; [|exact Hname]. intros b Hb. cbv beta in Hb |- *.
    destruct (b =? 95); lia. }
  apply EqualFold_ascii in E; [|exact Hascii|exact Hka].
  apply Contains_bytes. intros Hin. apply folded_underscore in Hin.
  fold (folded h) in E. rewrite E in Hin.
  fold (folded (GoStrings.Replace (Name f) "_" " ")) in Hin.
  apply folded_underscore in Hin. rewrite bytes_Replace in Hin.
  apply in_map_iff in Hin as (b & Hb & _).
  destruct (b =? 95) eqn:Eb; [discriminate|]. apply Z.eqb_neq in Eb. contradiction.
Qed.

End MoreConstruction.

(** ** More on decoding *)

Section MoreDecoding.

Context `{UF : UnicodeFold} `{FC : FloatConv} {R : Type} `{RD : Reader R}.

Lemma convert_string j f vals (rec : Target) :
  entry_typed j string_k f rec ->
  exists fld, rec !! j = Some fld /\
    convert string_k f vals rec None =
      Returns (<[j := set_Val fld (StringVal vals)]> rec, None).
Proof.
  intros (-> & fld & Hfld & HK). exists fld. split; [exact Hfld|].
  unfold convert, SetString, settable_field. rewrite Hfld, HK. reflexivity.
Qed.

Lemma convert_int j f vals (rec : Target) :
  entry_typed j int_k f rec ->
  exists fld bits, rec !! j = Some fld /\ int_bits (Kind fld) = Some bits /\
    (bits = 8 \/ bits = 16 \/ bits = 32 \/ bits = 64) /\
    forall z err,
      Strconv.ParseInt (if String.eqb vals "" then "0" else vals) 0 = (z, err) ->
      convert int_k f vals rec None =
        Returns (<[j := set_Val fld (IntVal (wrap_int bits z))]> rec, err).
Proof.
  intros (-> & fld & bits & Hfld & HK & Hb). exists fld, bits.
  split; [exact Hfld|]. split; [exact HK|]. split; [exact Hb|].
  intros z err Hp. unfold convert. rewrite Hp.
  unfold SetInt, settable_field. rewrite Hfld, HK. reflexivity.
Qed.

Lemma convert_uint j f vals (rec : Target) :
  entry_typed j uint_k f rec ->
  exists fld bits, rec !! j = Some fld /\ uint_bits (Kind fld) = Some bits /\
    forall u err,
      Strconv.ParseUint vals 0 = (u, err) ->
      convert uint_k f vals rec None =
        Returns (<[j := set_Val fld (UintVal (wrap_uint bits u))]> rec, err).
Proof.
  intros (-> & fld & bits & Hfld & HK). exists fld, bits.
  split; [exact Hfld|]. split; [exact HK|].
  intros u err Hp. unfold convert. rewrite Hp.
  unfold SetUint, settable_field. rewrite Hfld, HK. reflexivity.
Qed.

Lemma convert_float j f vals (rec : Target) :
  entry_typed j float_k f rec ->
  exists fld, rec !! j = Some fld /\
    forall x err,
      ParseFloat vals 0 = (x, err) ->
      convert float_k f vals rec None =
        Returns (<[j := set_Val fld (FloatVal (stored_float (Kind fld) x))]> rec, err).
Proof.
  intros (-> & fld & Hfld & HK). exists fld. split; [exact Hfld|].
  intros x err Hp. unfold convert. rewrite Hp.
  unfold SetFloat, settable_field, stored_float. rewrite Hfld.
  destruct HK as [HK|HK]; rewrite HK; reflexivity.
Qed.

(** The call of [Get] at an entry of a session that [NewReadIter] built:
    the handle of the entry fits the target, and what the [switch] answers
    decides between the fault and the next entry; in the latter case the
    entries that follow leave the field alone. *)
Lemma Get_entry rdr0 (ps : Target) (this0 this : ReadIter R) (rec rec1 : Target)
    row rdr' fi ci kind vals :
  NewReadIter rdr0 ps = (Some this0, None) ->
  after_Gets this0 ps this rec ->
  Read (Reader_ this) = ((row, None), rdr') ->
  decodes_upto (after_Read this) row fi rec rec1 ->
  tags this !! fi = Some ci ->
  kinds this !! fi = Some kind ->
  index row ci = Returns vals ->
  exists f,
    entry_typed fi kind f rec1 /\
    forall rec2 err,
      convert kind f vals rec1 None = Returns (rec2, err) ->
      match err with
      | Some e =>
          Get this rec =
            (Returns false, set_Error (set_Column (after_Read this) (ci + 1)) e, rec2)
      | None =>
          Get this rec =
            Get_loop (after_Read this) row (S fi) (drop (S fi) (tags this)) rec2 None /\
          snd (Get this rec) !! fi = rec2 !! fi
      end.
Proof.
  intros Hnew Hafter Hread Hupto Htag Hkind Hidx.
  pose proof (NewReadIter_typed _ _ _ Hnew) as Hty0.
  destruct (after_Gets_typed _ _ _ _ Hafter Hty0) as (Hty & _).
  destruct (decodes_upto_typed _ _ _ _ _ Hty Hupto) as [Hty1 _].
  pose proof (lookup_lt_Some _ _ _ Htag) as Hlt.
  pose proof Hty1 as (Hk & Hf & Hall).
  destruct (lookup_lt_is_Some_2 (fields this) fi) as [f Hfld]; [lia|].
  pose proof (Hall _ _ _ Hkind Hfld) as Hent.
  exists f. split; [exact Hent|]. intros rec2 err Hconv.
  pose proof (Get_at_entry this rec rec1 row rdr' fi ci vals kind f
                Hread Hupto Htag Hkind Hfld Hidx) as Hget.
  rewrite Hconv in Hget. destruct err as [e|]; [exact Hget|].
  split; [exact Hget|].
  destruct (convert_typed fi kind f vals rec1 Hent)
    as (rec2' & err2 & Hconv2 & _ & Hframe & Hent2 & _).
  rewrite Hconv in Hconv2. injection Hconv2 as <- <-.
  pose proof (plan_typed_convert this rec1 rec2 fi kind f Hty1 Hkind Hfld Hframe Hent2)
    as Hty2.
  destruct (Get_loop_typed (after_Read this) row (drop (S fi) (tags this)) (S fi) rec2 Hty2)
    as (o & this' & rec' & Hrun & _ & _ & Hfr & _).
  { rewrite length_drop. change (tags (after_Read this)) with (tags this). lia. }
  rewrite Hget, Hrun. simpl. apply Hfr. lia.
Qed.

(** X6.  A string entry copies the text of its column as it is: when
    [Get] reaches the entry, the field holds that text, decoding goes on
    with the next entry, and the field still holds the text when [Get] is
    over, whatever it returns. *)
Theorem Get_copies_string rdr0 (ps : Target) (this0 this : ReadIter R)
    (rec rec1 : Target) row rdr' fi ci vals :
  NewReadIter rdr0 ps = (Some this0, None) ->
  after_Gets this0 ps this rec ->
  Read (Reader_ this) = ((row, None), rdr') ->
  decodes_upto (after_Read this) row fi rec rec1 ->
  tags this !! fi = Some ci ->
  kinds this !! fi = Some string_k ->
  index row ci = Returns vals ->
  exists fld, rec1 !! fi = Some fld /\
    Get this rec =
      Get_loop (after_Read this) row (S fi) (drop (S fi) (tags this))
               (<[fi := set_Val fld (StringVal vals)]> rec1) None /\
    snd (Get this rec) !! fi = Some (set_Val fld (StringVal vals)).
Proof.
  intros Hnew Hafter Hread Hupto Htag Hkind Hidx.
  destruct (Get_entry _ _ _ _ _ _ _ _ _ _ _ _ Hnew Hafter Hread Hupto Htag Hkind Hidx)
    as (f & Hent & Hgo).
  destruct (convert_string fi f vals rec1 Hent) as (fld & Hfld & Hconv).
  destruct (Hgo _ _ Hconv) as [Hget Hfin].
  exists fld. split; [exact Hfld|]. split; [exact Hget|].
  rewrite Hfin. apply list_lookup_insert_eq. exact (lookup_lt_Some _ _ _ Hfld).
Qed.

(** X7.  A numeric entry whose text the parser takes stores the number and
    goes on: a signed field holds the number brought to the width of the
    field (empty text counting as 0), an unsigned field likewise, a float
    field the number, rounded for a [float32]; the field still holds it
    when [Get] is over. *)
Theorem Get_stores_number rdr0 (ps : Target) (this0 this : ReadIter R)
    (rec rec1 : Target) row rdr' fi ci kind vals :
  NewReadIter rdr0 ps = (Some this0, None) ->
  after_Gets this0 ps this rec ->
  Read (Reader_ this) = ((row, None), rdr') ->
  decodes_upto (after_Read this) row fi rec rec1 ->
  tags this !! fi = Some ci ->
  kinds this !! fi = Some kind ->
  index row ci = Returns vals ->
  match kind with
  | int_k =>
      forall z,
        Strconv.ParseInt (if String.eqb vals "" then "0" else vals) 0 = (z, None) ->
        exists fld bits, rec1 !! fi = Some fld /\ int_bits (Kind fld) = Some bits /\
          Get this rec =
            Get_loop (after_Read this) row (S fi) (drop (S fi) (tags this))
                     (<[fi := set_Val fld (IntVal (wrap_int bits z))]> rec1) None /\
          snd (Get this rec) !! fi = Some (set_Val fld (IntVal (wrap_int bits z)))
  | uint_k =>
      forall u,
        Strconv.ParseUint vals 0 = (u, None) ->
        exists fld bits, rec1 !! fi = Some fld /\ uint_bits (Kind fld) = Some bits /\
          Get this rec =
            Get_loop (after_Read this) row (S fi) (drop (S fi) (tags this))
                     (<[fi := set_Val fld (UintVal (wrap_uint bits u))]> rec1) None /\
          snd (Get this rec) !! fi = Some (set_Val fld (UintVal (wrap_uint bits u)))
  | float_k =>
      forall x,
        ParseFloat vals 0 = (x, None) ->
        exists fld, rec1 !! fi = Some fld /\
          Get this rec =
            Get_loop (after_Read this) row (S fi) (drop (S fi) (tags this))
                     (<[fi := set_Val fld (FloatVal (stored_float (Kind fld) x))]> rec1)
                     None /\
          snd (Get this rec) !! fi =
            Some (set_Val fld (FloatVal (stored_float (Kind fld) x)))
  | _ => True
  end.
Proof.
  intros Hnew Hafter Hread Hupto Htag Hkind Hidx.
  destruct (Get_entry _ _ _ _ _ _ _ _ _ _ _ _ Hnew Hafter Hread Hupto Htag Hkind Hidx)
    as (f & Hent & Hgo).
  destruct kind; try exact I.
  - intros z Hp. destruct (convert_int fi f vals rec1 Hent) as (fld & bits & Hfld & HK & _ & Hc).
    destruct (Hgo _ _ (Hc z None Hp)) as [Hget Hfin].
    exists fld, bits. split; [exact Hfld|]. split; [exact HK|]. split; [exact Hget|].
    rewrite Hfin. apply list_lookup_insert_eq. exact (lookup_lt_Some _ _ _ Hfld).
  - intros x Hp. destruct (convert_float fi f vals rec1 Hent) as (fld & Hfld & Hc).
    destruct (Hgo _ _ (Hc x None Hp)) as [Hget Hfin].
    exists fld. split; [exact Hfld|]. split; [exact Hget|].
    rewrite Hfin. apply list_lookup_insert_eq. exact (lookup_lt_Some _ _ _ Hfld).
  - intros u Hp. destruct (convert_uint fi f vals rec1 Hent) as (fld & bits & Hfld & HK & Hc).
    destruct (Hgo _ _ (Hc u None Hp)) as [Hget Hfin].
    exists fld, bits. split; [exact Hfld|]. split; [exact HK|]. split; [exact Hget|].
    rewrite Hfin. apply list_lookup_insert_eq. exact (lookup_lt_Some _ _ _ Hfld).
Qed.




Lemma wrap_int_range bits z : 0 < bits -> in_int_range bits (wrap_int bits z).
Proof.
  intros Hb. unfold in_int_range, wrap_int.
  assert (2 ^ bits = 2 * 2 ^ (bits - 1)) as E.
  { replace bits with (Z.succ (bits - 1)) at 1 by lia. apply Z.pow_succ_r. lia. }
  assert (0 < 2 ^ (bits - 1)) as Hp by (apply Z.pow_pos_nonneg; lia).
  pose proof (Z.mod_pos_bound (z + 2 ^ (bits - 1)) (2 ^ bits)) as Hm. lia.
Qed.

Lemma wrap_int_congruent bits z :
  0 < bits -> (wrap_int bits z - z) mod 2 ^ bits = 0.
Proof.
  intros Hb. unfold wrap_int.
  assert (0 < 2 ^ bits) as Hp by (apply Z.pow_pos_nonneg; lia).
  rewrite (Z.mod_eq (z + 2 ^ (bits - 1)) (2 ^ bits)) by lia.
  replace (z + 2 ^ (bits - 1) - 2 ^ bits * ((z + 2 ^ (bits - 1)) / 2 ^ bits)
           - 2 ^ (bits - 1) - z)
    with (- ((z + 2 ^ (bits - 1)) / 2 ^ bits) * 2 ^ bits) by lia.
  apply Z.mod_mul. lia.
Qed.

(** X9.  A signed field narrower than the number it is given is not a
    fault: when the parser takes the text but the number is outside the
    range of the field's kind, [Get] records nothing and goes on, and the
    field holds another number, the one of its range that differs from the
    parsed one by a multiple of [2 ^ bits]. *)
Theorem Get_narrow_int_wraps rdr0 (ps : Target) (this0 this : ReadIter R)
    (rec rec1 : Target) row rdr' fi ci vals z fld bits :
  NewReadIter rdr0 ps = (Some this0, None) ->
  after_Gets this0 ps this rec ->
  Read (Reader_ this) = ((row, None), rdr') ->
  decodes_upto (after_Read this) row fi rec rec1 ->
  tags this !! fi = Some ci ->
  kinds this !! fi = Some int_k ->
  index row ci = Returns vals ->
  Strconv.ParseInt (if String.eqb vals "" then "0" else vals) 0 = (z, None) ->
  rec1 !! fi = Some fld ->
  int_bits (Kind fld) = Some bits ->
  ~ in_int_range bits z ->
  exists v,
    v <> z /\ in_int_range bits v /\ (v - z) mod 2 ^ bits = 0 /\
    Get this rec =
      Get_loop (after_Read this) row (S fi) (drop (S fi) (tags this))
               (<[fi := set_Val fld (IntVal v)]> rec1) None /\
    snd (Get this rec) !! fi = Some (set_Val fld (IntVal v)).
Proof.
  intros Hnew Hafter Hread Hupto Htag Hkind Hidx Hp Hfld HK Hout.
  destruct (Get_entry _ _ _ _ _ _ _ _ _ _ _ _ Hnew Hafter Hread Hupto Htag Hkind Hidx)
    as (f & Hent & Hgo).
  destruct (convert_int fi f vals rec1 Hent) as (fld' & bits' & Hfld' & HK' & Hb & Hc).
  assert (fld' = fld) as -> by congruence.
  assert (bits' = bits) as -> by congruence.
  destruct (Hgo _ _ (Hc z None Hp)) as [Hget Hfin].
  assert (0 < bits) as Hpos by lia.
  exists (wrap_int bits z).
  pose proof (wrap_int_range bits z Hpos) as Hr.
  split; [intros E; rewrite E in Hr; contradiction|].
  split; [exact Hr|]. split; [exact (wrap_int_congruent bits z Hpos)|].
  split; [exact Hget|].
  rewrite Hfin. apply list_lookup_insert_eq. exact (lookup_lt_Some _ _ _ Hfld).
Qed.

(** X10.  A custom entry always finds its [Value]: the receiver is the
    one the field held, [Set] is called with the text of the column, and
    when [Set] takes the text decoding goes on with the next entry, the
    field holding the receiver as [Set] left it, still so when [Get] is
    over. *)
Theorem Get_sets_custom rdr0 (ps : Target) (this0 this : ReadIter R)
    (rec rec1 : Target) row rdr' fi ci vals :
  NewReadIter rdr0 ps = (Some this0, None) ->
  after_Gets this0 ps this rec ->
  Read (Reader_ this) = ((row, None), rdr') ->
  decodes_upto (after_Read this) row fi rec rec1 ->
  tags this !! fi = Some ci ->
  kinds this !! fi = Some value_k ->
  index row ci = Returns vals ->
  exists fld v, rec1 !! fi = Some fld /\
    (Val fld = Custom v \/ Val fld = Dynamic (Some v)) /\
    (snd (call_Set v vals) = true ->
     Get this rec =
       Get_loop (after_Read this) row (S fi) (drop (S fi) (tags this))
                (<[fi := store_receiver fld (fst (call_Set v vals))]> rec1) None /\
     snd (Get this rec) !! fi = Some (store_receiver fld (fst (call_Set v vals)))).
Proof.
  intros Hnew Hafter Hread Hupto Htag Hkind Hidx.
  destruct (Get_entry _ _ _ _ _ _ _ _ _ _ _ _ Hnew Hafter Hread Hupto Htag Hkind Hidx)
    as (f & Hent & Hgo).
  destruct (convert_value fi f vals rec1 Hent) as (fld & v & Hfld & Hv & Hconv).
  exists fld, v. split; [exact Hfld|]. split; [exact Hv|]. intros _.
  destruct (Hgo _ _ Hconv) as [Hget Hfin]. split; [exact Hget|].
  rewrite Hfin. apply list_lookup_insert_eq. exact (lookup_lt_Some _ _ _ Hfld).
Qed.

(** Where the loop stops when it returns false: the entries before have
    been decoded and the [switch] answered an error at this one. *)
Lemma Get_loop_false_inv (this : ReadIter R) row rest :
  forall fi (rec : Target) this' rec',
  Get_loop this row fi rest rec None = (Returns false, this', rec') ->
  exists n c vals kind f rec1 e,
    rest !! n = Some c /\
    Get_loop this row fi (take n rest) rec None = (Returns true, this, rec1) /\
    index row c = Returns vals /\
    fields this !! (fi + n)%nat = Some f /\
    kinds this !! (fi + n)%nat = Some kind /\
    convert kind f vals rec1 None = Returns (rec', Some e) /\
    this' = set_Error (set_Column this (c + 1)) e.
Proof.
  induction rest as [|c rest IH]; intros fi rec this' rec' Hrun; simpl in Hrun.
  - discriminate.
  - destruct (index row c) as [vals|p] eqn:Hidx; [|discriminate].
    destruct (index (fields this) (Z.of_nat fi)) as [f|p] eqn:Hf; [|discriminate].
    destruct (index (kinds this) (Z.of_nat fi)) as [kind|p] eqn:Hk; [|discriminate].
    destruct (convert kind f vals rec None) as [[rec2 [e|]]|p] eqn:Hconv; [| |discriminate].
    + injection Hrun as <- <-.
      apply index_Returns_inv in Hf as [_ Hf]. apply index_Returns_inv in Hk as [_ Hk].
      rewrite Nat2Z.id in Hf, Hk.
      exists 0%nat, c, vals, kind, f, rec, e. rewrite Nat.add_0_r.
      repeat split; assumption.
    + destruct (IH (S fi) rec2 this' rec' Hrun)
        as (n & c' & vals' & kind' & f' & rec1 & e & Hn & Hpre & Hi & Hf' & Hk' & Hc & Ht).
      exists (S n), c', vals', kind', f', rec1, e.
      replace (fi + S n)%nat with (S fi + n)%nat by lia.
      split; [exact Hn|]. split.
      { simpl. rewrite Hidx, Hf, Hk, Hconv. exact Hpre. }
      repeat split; assumption.
Qed.

Lemma Get_cursor (this this' : ReadIter R) (rec rec' : Target) o :
  Get this rec = (o, this', rec') ->
  Reader_ this' = snd (Read (Reader_ this)) /\
  Line this' = int_add (Line this) 1 /\
  Headers this' = Headers this /\
  kinds this' = kinds this /\ tags this' = tags this /\ fields this' = fields this /\
  (o = Returns true -> Column this' = Column this).
Proof.
  rewrite Get_unfold. destruct (snd (fst (Read (Reader_ this)))) as [e|].
  - intros [= <- <- <-]. destruct (error_eqb e io_EOF); repeat split; discriminate.
  - intros Hrun. apply Get_loop_session in Hrun.
    destruct o as [[|]|p]; [subst this'| destruct Hrun as (c & e & ->) | subst this'];
      repeat split; discriminate.
Qed.

Lemma looping_Column (this this' : ReadIter R) (rec rec' : Target) :
  looping this rec this' rec' -> Column this' = Column this.
Proof.
  induction 1 as [this rec|this rec this1 rec1 this2 rec2 Hget _ IH]; [reflexivity|].
  rewrite IH. apply (Get_cursor _ _ _ _ _ Hget). reflexivity.
Qed.

(** The columns of a plan are positions of the header, but for the 0 of an
    entry without column. *)
Lemma NewReadIter_tags_bound rdr (ps : Target) (this : ReadIter R) j c :
  NewReadIter rdr ps = (Some this, None) ->
  tags this !! j = Some c ->
  c = 0 \/ 0 <= c < Z.of_nat (length (Headers this)).
Proof.
  intros Hnew Hc.
  pose proof (NewReadIter_inv _ _ _ Hnew) as (_ & _ & _ & _ & _ & Ht & _ & Hplan).
  pose proof (lookup_lt_Some _ _ _ Hc) as Hlt. rewrite Ht in Hlt.
  destruct (lookup_lt_is_Some_2 ps j Hlt) as [g Hg].
  specialize (Hplan j g Hg). unfold plan_entry, planned in Hplan. rewrite Hc in Hplan.
  destruct (find_header_spec (Headers this) (lookup_tag g) 0)
    as [[Hm _]|(n & Hn & [(h & Hh & _) _])]; [lia|..].
  - rewrite Hm in Hplan. simpl in Hplan. injection Hplan as _ -> _. auto.
  - apply lookup_lt_Some in Hh. rewrite Hn in Hplan.
    destruct (0 + Z.of_nat n =? -1); [injection Hplan as _ -> _; auto|].
    destruct (classify j g) as [[kind val]|]; injection Hplan as _ -> _; [right; lia|auto].
Qed.

(** X11.  Where a false result comes from.  In the caller's loop over a
    session that [NewReadIter] built, when [Get] returns false after a read
    that failed, the column of the session is 0 and the target is as it
    was; when it returns false after a read without fault, it stopped at
    one entry of the plan: the entries before it are decoded, the column of
    the session is the column of that entry counted from 1, a column of the
    row and of the header, an error is recorded, and the fields of the
    entries that follow are as they were before the call. *)
Theorem Get_fault_location rdr0 (ps : Target) (this0 this this' : ReadIter R)
    (rec rec' : Target) :
  NewReadIter rdr0 ps = (Some this0, None) ->
  looping this0 ps this rec ->
  Get this rec = (Returns false, this', rec') ->
  match snd (fst (Read (Reader_ this))) with
  | Some _ => Column this' = 0 /\ rec' = rec
  | None =>
      exists fi ci rec1,
        tags this !! fi = Some ci /\
        decodes_upto (after_Read this) (fst (fst (Read (Reader_ this)))) fi rec rec1 /\
        Column this' = ci + 1 /\
        1 <= Column this' <= Z.of_nat (length (fst (fst (Read (Reader_ this))))) /\
        Column this' <= Z.of_nat (length (Headers this)) /\
        Error this' <> None /\
        (forall i, (i < fi)%nat -> rec' !! i = rec1 !! i) /\
        (forall i, (fi < i)%nat -> rec' !! i = rec !! i)
  end.
Proof.
  intros Hnew Hloop Hget.
  pose proof (looping_after_Gets _ _ _ _ Hloop) as Hafter.
  pose proof (NewReadIter_typed _ _ _ Hnew) as Hty0.
  destruct (after_Gets_typed _ _ _ _ Hafter Hty0) as (Hty & Ek & Et & _ & Eh & _).
  assert (Column this = 0) as Hcol.
  { rewrite (looping_Column _ _ _ _ Hloop). apply (NewReadIter_inv _ _ _ Hnew). }
  rewrite Get_unfold in Hget.
  destruct (snd (fst (Read (Reader_ this)))) as [e|].
  - injection Hget as <- <-. split; [|reflexivity].
    destruct (error_eqb e io_EOF); exact Hcol.
  - set (row := fst (fst (Read (Reader_ this)))) in *.
    destruct (Get_loop_false_inv _ _ _ _ _ _ _ Hget)
      as (n & c & vals & kind & f & rec1 & e & Hn & Hpre & Hidx & Hf & Hk & Hconv & ->).
    simpl in Hf, Hk, Hn.
    assert (decodes_upto (after_Read this) row n rec rec1) as Hupto by exact Hpre.
    destruct (decodes_upto_typed _ _ _ _ _ Hty Hupto) as [Hty1 Hsame].
    pose proof Hty1 as (_ & _ & Hall).
    destruct (convert_typed n kind f vals rec1 (Hall _ _ _ Hk Hf))
      as (rec2 & err2 & Hconv2 & _ & Hframe & _ & Hnone).
    rewrite Hconv in Hconv2. injection Hconv2 as <- <-.
    assert (kind <> none_k) as Hkind.
    { intros ->. destruct (Hnone eq_refl) as [_ HN]. discriminate. }
    apply index_Returns_inv in Hidx as [Hin _].
    assert (0 <= c < Z.of_nat (length (Headers this))) as Hhdr.
    { pose proof (NewReadIter_inv _ _ _ Hnew) as (_ & _ & _ & _ & Hkl & _).
      pose proof (lookup_lt_Some _ _ _ Hk) as Hlt. rewrite Ek, Hkl in Hlt.
      destruct (lookup_lt_is_Some_2 ps n Hlt) as [g Hg].
      rewrite Ek in Hk. rewrite Et in Hn.
      destruct (NewReadIter_bound _ _ _ _ _ _ Hnew Hg Hk Hkind)
        as (k & val & [(h & Hh & _) _] & _ & He).
      unfold plan_entry in He. apply lookup_lt_Some in Hh. rewrite Eh.
      assert (c = Z.of_nat k) as -> by congruence. lia. }
    exists n, c, rec1. simpl.
    split; [exact Hn|]. split; [exact Hupto|]. split; [reflexivity|].
    split; [lia|]. split; [lia|]. split; [discriminate|]. split.
    + intros i Hi. apply Hframe. lia.
    + intros i Hi. rewrite Hframe by lia. apply Hsame. lia.
Qed.

(** X12.  [Get] panics on short rows only: in a session that
    [NewReadIter] built, a call whose read fails, or yields a row that is
    not empty and has at least as many fields as the header, returns true
    or false. *)
Theorem Get_wide_row_returns rdr0 (ps : Target) (this0 this : ReadIter R)
    (rec : Target) row err rdr' :
  NewReadIter rdr0 ps = (Some this0, None) ->
  after_Gets this0 ps this rec ->
  Read (Reader_ this) = ((row, err), rdr') ->
  (err = None ->
   (0 < length row)%nat /\ (length (Headers this) <= length row)%nat) ->
  exists b this' rec', Get this rec = (Returns b, this', rec').
Proof.
  intros Hnew Hafter Hread Hwide.
  pose proof (NewReadIter_typed _ _ _ Hnew) as Hty0.
  destruct (after_Gets_typed _ _ _ _ Hafter Hty0) as (Hty & _ & Et & _ & Eh & _).
  rewrite Get_unfold, Hread. simpl fst; simpl snd.
  destruct err as [e|]; [eauto|].
  destruct (Hwide eq_refl) as [Hpos Hlen].
  destruct (Get_loop_typed (after_Read this) row (tags this) 0%nat rec Hty)
    as (o & this' & rec' & Hrun & _ & _ & _ & _ & Ho); [simpl; lia|].
  rewrite Hrun. destruct o as [b|p]; [eauto|].
  destruct Ho as (j & c & Hj & Hout & _). exfalso. apply Hout.
  rewrite Et in Hj. rewrite Eh in Hlen.
  destruct (NewReadIter_tags_bound _ _ _ _ _ Hnew Hj) as [->|Hc]; unfold in_row; lia.
Qed.

Lemma wrap_int_add a b : wrap_int 64 (wrap_int 64 a + b) = wrap_int 64 (a + b).
Proof.
  unfold wrap_int.
  replace ((a + 2 ^ (64 - 1)) mod 2 ^ 64 - 2 ^ (64 - 1) + b + 2 ^ (64 - 1))
    with ((a + 2 ^ (64 - 1)) mod 2 ^ 64 + b) by lia.
  rewrite Zplus_mod_idemp_l. f_equal. f_equal. lia.
Qed.

Lemma iter_shift {A : Type} (f : A -> A) n : forall x,
  Nat.iter n f (f x) = Nat.iter (S n) f x.
Proof.
  induction n as [|n IH]; intros x; [reflexivity|].
  simpl. rewrite IH. reflexivity.
Qed.

Lemma Gets_cursor n : forall (this : ReadIter R) (rec : Target) L,
  Line this = wrap_int 64 L ->
  Reader_ (fst (Gets n this rec)) = Nat.iter n (fun r => snd (Read r)) (Reader_ this) /\
  Line (fst (Gets n this rec)) = wrap_int 64 (L + Z.of_nat n) /\
  Headers (fst (Gets n this rec)) = Headers this /\
  kinds (fst (Gets n this rec)) = kinds this /\
  tags (fst (Gets n this rec)) = tags this /\
  fields (fst (Gets n this rec)) = fields this.
Proof.
  induction n as [|n IH]; intros this rec L HL.
  - simpl. rewrite Z.add_0_r. repeat split. exact HL.
  - cbn [Gets]. destruct (Get this rec) as [[o this1] rec1] eqn:Hget.
    destruct (Get_cursor _ _ _ _ _ Hget) as (E1 & E2 & E3 & E4 & E5 & E6 & _).
    destruct (IH this1 rec1 (L + 1)) as (F1 & F2 & F3 & F4 & F5 & F6).
    { rewrite E2, HL. apply wrap_int_add. }
    rewrite F1, F2, F3, F4, F5, F6, E1, E3, E4, E5, E6.
    split; [exact (iter_shift (fun r => snd (Read r)) n (Reader_ this))|].
    split; [f_equal; lia|]. repeat split.
Qed.

(** X13.  The cursor counts the calls.  After [n] calls of [Get] on a
    session that [NewReadIter] built, whatever they returned, the source has
    been read [n] times more, one row for each call, the line of the
    session is [1 + n] (in the arithmetic of [int]), and the header and the
    plan are those of the construction. *)
Theorem Gets_bookkeeping rdr0 (ps : Target) (this0 : ReadIter R) n :
  NewReadIter rdr0 ps = (Some this0, None) ->
  Reader_ (fst (Gets n this0 ps)) =
    Nat.iter n (fun r => snd (Read r)) (Reader_ this0) /\
  Line (fst (Gets n this0 ps)) = wrap_int 64 (1 + Z.of_nat n) /\
  (1 + Z.of_nat n < 2 ^ 63 -> Line (fst (Gets n this0 ps)) = 1 + Z.of_nat n) /\
  Headers (fst (Gets n this0 ps)) = Headers this0 /\
  kinds (fst (Gets n this0 ps)) = kinds this0 /\
  tags (fst (Gets n this0 ps)) = tags this0 /\
  fields (fst (Gets n this0 ps)) = fields this0.
Proof.
  intros Hnew.
  pose proof (NewReadIter_inv _ _ _ Hnew) as (_ & _ & HL & _).
  destruct (Gets_cursor n this0 ps 1) as (F1 & F2 & F3 & F4 & F5 & F6).
  { rewrite HL. reflexivity. }
  repeat split; try assumption.
  intros Hsmall. rewrite F2. unfold wrap_int.
  rewrite Z.mod_small; lia.
Qed.

(** The loop when it returns true: every entry was decoded in its turn. *)
Lemma Get_loop_true_inv (this : ReadIter R) row rest :
  forall fi (rec : Target) this' rec',
  Get_loop this row fi rest rec None = (Returns true, this', rec') ->
  forall n c, rest !! n = Some c ->
  exists vals kind f rec1 rec2,
    Get_loop this row fi (take n rest) rec None = (Returns true, this, rec1) /\
    index row c = Returns vals /\
    fields this !! (fi + n)%nat = Some f /\
    kinds this !! (fi + n)%nat = Some kind /\
    convert kind f vals rec1 None = Returns (rec2, None) /\
    Get_loop this row (S (fi + n)) (drop (S n) rest) rec2 None =
      (Returns true, this', rec').
Proof.
  induction rest as [|c0 rest IH]; intros fi rec this' rec' Hrun n c Hn.
  - rewrite lookup_nil in Hn. discriminate.
  - simpl in Hrun.
    destruct (index row c0) as [vals|p] eqn:Hidx; [|discriminate].
    destruct (index (fields this) (Z.of_nat fi)) as [f|p] eqn:Hf; [|discriminate].
    destruct (index (kinds this) (Z.of_nat fi)) as [kind|p] eqn:Hk; [|discriminate].
    destruct (convert kind f vals rec None) as [[rec2 [e|]]|p] eqn:Hconv;
      [discriminate| |discriminate].
    destruct n as [|n]; simpl in Hn.
    + injection Hn as <-.
      apply index_Returns_inv in Hf as [_ Hf]. apply index_Returns_inv in Hk as [_ Hk].
      rewrite Nat2Z.id in Hf, Hk.
      exists vals, kind, f, rec, rec2. rewrite Nat.add_0_r. simpl.
      repeat split; assumption.
    + destruct (IH (S fi) rec2 this' rec' Hrun n c Hn)
        as (vals' & kind' & f' & rec1 & rec3 & Hpre & Hi & Hf' & Hk' & Hc & Hrest).
      exists vals', kind', f', rec1, rec3.
      replace (fi + S n)%nat with (S fi + n)%nat by lia.
      split; [simpl; rewrite Hidx, Hf, Hk, Hconv; exact Hpre|].
      repeat split; assumption.
Qed.

(** X14.  What a true result means.  When [Get] returns true on a session
    that [NewReadIter] built, the read gave a row without a fault, every
    column of the plan is a column of that row, and every field of the
    target holds the conversion of its column's text: the text itself for a
    string, the parsed number at the width of the field for an integer or a
    float, the receiver as [Set] left it for a custom field; a field whose
    entry has no kind is as it was. *)
Theorem Get_true_decodes rdr0 (ps : Target) (this0 this this' : ReadIter R)
    (rec rec' : Target) fi ci kind :
  NewReadIter rdr0 ps = (Some this0, None) ->
  after_Gets this0 ps this rec ->
  Get this rec = (Returns true, this', rec') ->
  tags this !! fi = Some ci ->
  kinds this !! fi = Some kind ->
  exists row rdr' vals,
    Read (Reader_ this) = ((row, None), rdr') /\
    index row ci = Returns vals /\
    match kind with
    | none_k => rec' !! fi = rec !! fi
    | string_k =>
        exists fld, rec !! fi = Some fld /\
          rec' !! fi = Some (set_Val fld (StringVal vals))
    | int_k =>
        exists fld bits z, rec !! fi = Some fld /\
          int_bits (Kind fld) = Some bits /\
          Strconv.ParseInt (if String.eqb vals "" then "0" else vals) 0 = (z, None) /\
          rec' !! fi = Some (set_Val fld (IntVal (wrap_int bits z)))
    | uint_k =>
        exists fld bits u, rec !! fi = Some fld /\
          uint_bits (Kind fld) = Some bits /\
          Strconv.ParseUint vals 0 = (u, None) /\
          rec' !! fi = Some (set_Val fld (UintVal (wrap_uint bits u)))
    | float_k =>
        exists fld x, rec !! fi = Some fld /\
          ParseFloat vals 0 = (x, None) /\
          rec' !! fi = Some (set_Val fld (FloatVal (stored_float (Kind fld) x)))
    | value_k =>
        exists fld v, rec !! fi = Some fld /\
          (Val fld = Custom v \/ Val fld = Dynamic (Some v)) /\
          rec' !! fi = Some (store_receiver fld (fst (call_Set v vals)))
    end.
Proof.
  intros Hnew Hafter Hget Htag Hkind.
  pose proof (NewReadIter_typed _ _ _ Hnew) as Hty0.
  destruct (after_Gets_typed _ _ _ _ Hafter Hty0) as (Hty & _).
  rewrite Get_unfold in Hget.
  destruct (Read (Reader_ this)) as [[row err] rdr'] eqn:Hread.
  simpl fst in Hget; simpl snd in Hget.
  destruct err as [e|]; [discriminate|].
  destruct (Get_loop_true_inv _ _ _ _ _ _ _ Hget fi ci Htag)
    as (vals & kind' & f & rec1 & rec2 & Hpre & Hidx & Hf & Hk & Hconv & Hrest).
  simpl in Hf, Hk. assert (kind' = kind) as -> by congruence.
  exists row, rdr', vals. split; [reflexivity|]. split; [exact Hidx|].
  assert (decodes_upto (after_Read this) row fi rec rec1) as Hupto.
  { unfold decodes_upto. exact Hpre. }
  destruct (decodes_upto_typed _ _ _ _ _ Hty Hupto) as [Hty1 Hsame].
  pose proof Hty1 as (_ & _ & Hall). pose proof (Hall _ _ _ Hk Hf) as Hent.
  destruct (convert_typed fi kind f vals rec1 Hent)
    as (rec2' & err2 & Hconv2 & _ & Hframe & Hent2 & Hnone).
  rewrite Hconv in Hconv2. injection Hconv2 as <- <-.
  pose proof (plan_typed_convert this rec1 rec2 fi kind f Hty1 Hk Hf Hframe Hent2) as Hty2.
  pose proof (lookup_lt_Some _ _ _ Htag) as Hlt.
  assert (rec' !! fi = rec2 !! fi) as Hfin.
  { match type of Hrest with
    | Get_loop ?t _ _ _ _ _ = _ =>
        destruct (Get_loop_typed t row (drop (S fi) (tags this)) (S fi) rec2 Hty2)
          as (o & t' & r' & Hrun & _ & _ & Hfr & _)
    end.
    { rewrite length_drop. simpl. lia. }
    simpl in Hrest. rewrite Hrest in Hrun. injection Hrun as <- <- <-.
    apply Hfr. lia. }
  assert (rec1 !! fi = rec !! fi) as Hsame' by (apply Hsame; lia).
  rewrite Hfin. rewrite <- Hsame'.
  destruct kind.
  - destruct (Hnone eq_refl) as [-> _]. reflexivity.
  - destruct (convert_string fi f vals rec1 Hent) as (fld & Hfld & Hc).
    rewrite Hc in Hconv. injection Hconv as <-.
    exists fld. split; [exact Hfld|].
    apply list_lookup_insert_eq. exact (lookup_lt_Some _ _ _ Hfld).
  - destruct (convert_int fi f vals rec1 Hent) as (fld & bits & Hfld & HK & _ & Hc).
    destruct (Strconv.ParseInt (if String.eqb vals "" then "0" else vals) 0)
      as [z err] eqn:Hp.
    rewrite (Hc z err eq_refl) in Hconv. injection Hconv as <- ->.
    exists fld, bits, z. split; [exact Hfld|]. split; [exact HK|]. split; [reflexivity|].
    apply list_lookup_insert_eq. exact (lookup_lt_Some _ _ _ Hfld).
  - destruct (convert_float fi f vals rec1 Hent) as (fld & Hfld & Hc).
    destruct (ParseFloat vals 0) as [x err] eqn:Hp.
    rewrite (Hc x err eq_refl) in Hconv. injection Hconv as <- ->.
    exists fld, x. split; [exact Hfld|]. split; [reflexivity|].
    apply list_lookup_insert_eq. exact (lookup_lt_Some _ _ _ Hfld).
  - destruct (convert_uint fi f vals rec1 Hent) as (fld & bits & Hfld & HK & Hc).
    destruct (Strconv.ParseUint vals 0) as [u err] eqn:Hp.
    rewrite (Hc u err eq_refl) in Hconv. injection Hconv as <- ->.
    exists fld, bits, u. split; [exact Hfld|]. split; [exact HK|]. split; [reflexivity|].
    apply list_lookup_insert_eq. exact (lookup_lt_Some _ _ _ Hfld).
  - destruct (convert_value fi f vals rec1 Hent) as (fld & v & Hfld & Hv & Hc).
    rewrite Hc in Hconv. injection Hconv as <-.
    exists fld, v. split; [exact Hfld|]. split; [exact Hv|].
    apply list_lookup_insert_eq. exact (lookup_lt_Some _ _ _ Hfld).
Qed.

End MoreDecoding.

(** * Scenarios *)

#[local] Existing Instances script_Read ascii_fold whole_floats.

Lemma first_match_tagged :
  first_match ["first name"; "b"; "A"; "a"] "A" 2.
Proof.
  split.
  - exists "A". split; reflexivity.
  - intros [|[|j]] h Hj Hh; simpl in Hh; try lia; injection Hh as <-; reflexivity.
Qed.

(** C6 at [tagged_struct]: the field named B and annotated A is bound to
    the column A (the first of the two that match), not to the column b. *)
Lemma NewReadIter_resolves_witness :
  NewReadIter tagged_source tagged_struct = (Some tagged_session, None) /\
  fst (fst (Read tagged_source)) = Headers tagged_session /\
  tags tagged_session !! 0%nat = Some 2.
Proof.
  split; [reflexivity|].
  apply (NewReadIter_resolves tagged_source tagged_struct tagged_session 0
           (mkField "B" "A" Reflect.String (StringVal "")) 2).
  - reflexivity.
  - reflexivity.
  - exact first_match_tagged.
Defined.

(** C1, the scenario of the specification.  On the short row [Get] writes
    the first field and panics at the second entry: it returns nothing, and
    the session holds no error and column 0, not a fault at column 2. *)
Lemma Get_short_row_panics :
  NewReadIter short_source short_struct = (Some short_session, None) /\
  Get short_session short_struct =
    (Panics (index_out_of_range 1 1),
     mkReadIter [] ["A"; "B"] None 2 0
                [Reflect.FieldOf 0; Reflect.FieldOf 1] [string_k; string_k] [0; 1],
     [mkField "A" "" Reflect.String (StringVal "1");
      mkField "B" "" Reflect.String (StringVal "")]) /\
  Column (snd (fst (Get short_session short_struct))) <> 2.
Proof.
  assert (Get short_session short_struct =
    (Panics (index_out_of_range 1 1),
     mkReadIter [] ["A"; "B"] None 2 0
                [Reflect.FieldOf 0; Reflect.FieldOf 1] [string_k; string_k] [0; 1],
     [mkField "A" "" Reflect.String (StringVal "1");
      mkField "B" "" Reflect.String (StringVal "")])) as E by reflexivity.
  split; [reflexivity|]. split; [exact E|]. rewrite E. simpl. lia.
Qed.

(** C1 at the short row. *)
Lemma Get_short_row_witness :
  tags short_session !! 1%nat = Some 1 /\
  exists o this' rec',
    Get short_session short_struct = (o, this', rec') /\
    match o with
    | Returns true => False
    | Returns false =>
        exists fj cj, (fj < 1)%nat /\ tags short_session !! fj = Some cj /\
          in_row ["1"] cj /\ Column this' = cj + 1
    | Panics p =>
        exists fj cj, (fj <= 1)%nat /\ tags short_session !! fj = Some cj /\
          Z.of_nat (length ["1"]) <= cj /\
          p = index_out_of_range cj (Z.of_nat (length ["1"])) /\
          Error this' = Error short_session /\ Column this' = Column short_session
    end.
Proof.
  split; [reflexivity|].
  apply (Get_short_row short_source short_struct short_session short_session
           short_struct ["1"] [] 1 1).
  - reflexivity.
  - apply after_no_Get.
  - reflexivity.
  - reflexivity.
  - simpl. lia.
Defined.


(** C3, a counterexample.  The first call of [Get] on [faulty_session]
    records a conversion fault and returns false; the next call returns
    true and decodes the following row into the target. *)
Lemma Get_resumes_after_fault :
  NewReadIter faulty_source faulty_struct = (Some faulty_session, None) /\
  Get faulty_session faulty_struct = (Returns false, faulted_session, faulty_struct) /\
  Error faulted_session = Some (NumError "ParseInt" "x" ErrSyntax) /\
  Get faulted_session faulty_struct =
    (Returns true,
     mkReadIter [] ["A"] (Some (NumError "ParseInt" "x" ErrSyntax)) 3 1
                [Reflect.FieldOf 0] [int_k] [0],
     [mkField "A" "" Reflect.Int (IntVal 5)]).
Proof. repeat split. Qed.

(** C3 at [faulted_session], followed for one more call. *)
Lemma Error_never_cleared_witness :
  Error faulted_session <> None /\
  Error (mkReadIter [] ["A"] (Some (NumError "ParseInt" "x" ErrSyntax)) 3 1
                    [Reflect.FieldOf 0] [int_k] [0] : ReadIter script) <> None /\
  fst (fst (Get faulted_session faulty_struct)) =
    fst (fst (Get (without_Error faulted_session) faulty_struct)) /\
  snd (Get faulted_session faulty_struct) =
    snd (Get (without_Error faulted_session) faulty_struct).
Proof.
  split; [discriminate|].
  apply (Error_never_cleared faulted_session _ faulty_struct
           [mkField "A" "" Reflect.Int (IntVal 5)]).
  - discriminate.
  - eapply after_one_more; [|apply after_no_Get]. reflexivity.
Defined.

(** C4, the failing input.  The custom field of [switch_struct] rejects
    the text of the row, and [Get] returns true all the same: no error and
    no column are recorded. *)
Theorem Get_accepts_rejected_text :
  NewReadIter switch_source switch_struct = (Some switch_session, None) /\
  snd (call_Set switch_off "maybe") = false /\
  Get switch_session switch_struct =
    (Returns true,
     mkReadIter [] ["Power"] None 2 0 [Reflect.AddrOf 0] [value_k] [0],
     switch_struct).
Proof. repeat split. Qed.


(** C7, a counterexample.  The header names A only; the plan built for the
    fields A and B has two entries, the second one for the field B that
    found no column. *)
Lemma unmatched_field_has_entry :
  NewReadIter partial_source partial_struct = (Some partial_session, None) /\
  find_header (Headers partial_session) "B" 0 = -1 /\
  length (tags partial_session) = 2%nat /\
  plan_entry partial_session 1 = (Some none_k, Some 0, Some Reflect.ZeroValue).
Proof. repeat split. Qed.

Lemma no_match_partial : no_match ["A"] "B".
Proof.
  intros [|j] h Hh; simpl in Hh; [|rewrite lookup_nil in Hh; discriminate].
  injection Hh as <-. reflexivity.
Qed.

(** C7 at [partial_struct]. *)
Lemma unmatched_field_kept_witness :
  length (kinds partial_session) = length partial_struct /\
  length (tags partial_session) = length partial_struct /\
  length (fields partial_session) = length partial_struct /\
  plan_entry partial_session 1 = placeholder /\
  (forall j g k,
     partial_struct !! j = Some g -> first_match ["A"] (spec_lookup_key g) k ->
     exists kind val,
       classify j g = Some (kind, val) /\
       plan_entry partial_session j = (Some kind, Some (Z.of_nat k), Some val)) /\
  (forall (this : ReadIter script) rec,
     after_Gets partial_session partial_struct this rec ->
     rec !! 1%nat = Some (mkField "B" "" Reflect.String (StringVal "kept"))).
Proof.
  exact (unmatched_field_kept partial_source partial_struct ["A"] [([], None)] 1
           (mkField "B" "" Reflect.String (StringVal "kept"))
           eq_refl eq_refl no_match_partial).
Defined.

(** C8 at [chan_struct]. *)
Lemma NewReadIter_type_error_witness :
  NewReadIter chan_source chan_struct =
    (None, Some (errors_New "cannot convert this type ")).
Proof.
  apply (NewReadIter_type_error chan_source chan_struct ["C"] [] 0
           (mkField "C" "" Reflect.Chan Opaque) 0 "C").
  - reflexivity.
  - reflexivity.
  - reflexivity.
  - reflexivity.
  - simpl. intros H. repeat (destruct H as [H|H]; [discriminate|]). exact H.
  - reflexivity.
  - reflexivity.
Defined.

(** C9 at [partial_struct], whose next row has no field. *)
Lemma placeholder_indexes_row_witness :
  Get partial_session partial_struct =
    (Panics (index_out_of_range 0 0), after_Read partial_session, partial_struct) /\
  plan_entry partial_session 1 = placeholder /\
  (forall row (rec1 : list (@Field whole_floats)),
     Get_loop partial_session row 1 (drop 1 (tags partial_session)) rec1 None =
       match row with
       | [] => (Panics (index_out_of_range 0 0), partial_session, rec1)
       | _ :: _ =>
           Get_loop partial_session row 2 (drop 2 (tags partial_session)) rec1 None
       end) /\
  (forall rdr',
     Read (Reader_ partial_session) = (([], None), rdr') ->
     exists c,
       Get partial_session partial_struct =
         (Panics (index_out_of_range c 0), after_Read partial_session, partial_struct)).
Proof.
  split; [reflexivity|].
  apply (placeholder_indexes_row partial_source partial_struct partial_session 1
           (mkField "B" "" Reflect.String (StringVal "kept"))).
  - reflexivity.
  - reflexivity.
  - exact no_match_partial.
  - apply after_no_Get.
Defined.

(** ** Scenarios for the further properties *)

Lemma is_ascii_tagged_headers : Forall is_ascii ["first name"; "b"; "A"; "a"].
Proof. repeat constructor. Qed.

(** X2 at [tagged_struct]: the column of its first field. *)
Lemma NewReadIter_bound_column_witness :
  0 <= 2 < Z.of_nat (length (Headers tagged_session)) /\
  first_match (Headers tagged_session)
    (spec_lookup_key (mkField "B" "A" Reflect.String (StringVal ""))) (Z.to_nat 2).
Proof.
  apply (NewReadIter_bound_column tagged_source tagged_struct tagged_session 0
           (mkField "B" "A" Reflect.String (StringVal "")) string_k 2).
  - reflexivity.
  - reflexivity.
  - reflexivity.
  - discriminate.
  - reflexivity.
Defined.

Lemma first_match_Power : first_match ["Power"] "Power" 0.
Proof.
  split.
  - exists "Power". split; reflexivity.
  - intros j h Hj. lia.
Qed.

(** X3 at [dial_struct]: a field of kind [Int] planned as a custom
    field. *)
Lemma NewReadIter_custom_first_witness :
  NewReadIter switch_source dial_struct = (Some switch_session, None) /\
  plan_entry switch_session 0 =
    (Some value_k, Some (Z.of_nat 0), Some (Reflect.AddrOf 0)).
Proof.
  split; [reflexivity|].
  apply (NewReadIter_custom_first switch_source dial_struct switch_session 0
           (mkField "Power" "" Reflect.Int (Custom switch_off)) 0 switch_off).
  - reflexivity.
  - reflexivity.
  - exact first_match_Power.
  - reflexivity.
Defined.

(** X4 at [tagged_struct]: the key A against the header, letters folded. *)
Lemma NewReadIter_ascii_match_witness :
  folded "A" = folded "a" /\
  tags tagged_session !! 0%nat = Some (Z.of_nat 2).
Proof.
  split; [reflexivity|].
  apply (NewReadIter_ascii_match tagged_source tagged_struct tagged_session 0
           (mkField "B" "A" Reflect.String (StringVal "")) 2 "A").
  - reflexivity.
  - reflexivity.
  - repeat constructor.
  - exact is_ascii_tagged_headers.
  - reflexivity.
  - reflexivity.
  - intros [|[|j]] h' Hj Hh; simpl in Hh; try lia; injection Hh as <-; discriminate.
Defined.

(** X5 at [tagged_struct]: the field First_Name, bound to the column
    written with a space. *)
Lemma untagged_field_no_underscore_witness :
  tags tagged_session !! 1%nat = Some 0 /\
  GoStrings.Contains "first name" "_" = false.
Proof.
  split; [reflexivity|].
  apply (untagged_field_no_underscore tagged_source tagged_struct tagged_session 1
           (mkField "First_Name" "" Reflect.String (StringVal "")) string_k 0
           "first name").
  - reflexivity.
  - reflexivity.
  - reflexivity.
  - repeat constructor.
  - reflexivity.
  - discriminate.
  - reflexivity.
  - reflexivity.
  - repeat constructor.
Defined.

Lemma faulted_reached :
  after_Gets faulty_session faulty_struct faulted_session faulty_struct.
Proof.
  apply (after_one_more faulty_session faulty_struct (Returns false)
           faulted_session faulty_struct); [reflexivity | apply after_no_Get].
Qed.

(** X6 at [blank_struct]: the text of the first column. *)
Lemma Get_copies_string_witness :
  exists fld, blank_struct !! 0%nat = Some fld /\
    Get blank_session blank_struct =
      Get_loop (after_Read blank_session) ["Ada"; ""; ""] 1
               (drop 1 (tags blank_session))
               (<[0%nat := set_Val fld (StringVal "Ada")]> blank_struct) None /\
    snd (Get blank_session blank_struct) !! 0%nat = Some (set_Val fld (StringVal "Ada")).
Proof.
  apply (Get_copies_string blank_source blank_struct blank_session blank_session
           blank_struct blank_struct ["Ada"; ""; ""] [] 0 0 "Ada").
  - reflexivity.
  - apply after_no_Get.
  - reflexivity.
  - reflexivity.
  - reflexivity.
  - reflexivity.
  - reflexivity.
Defined.

(** X7 at the second row of [faulty_source]: the text 5 in a signed
    field. *)
Lemma Get_stores_number_witness :
  exists fld bits, faulty_struct !! 0%nat = Some fld /\
    int_bits (Kind fld) = Some bits /\
    Get faulted_session faulty_struct =
      Get_loop (after_Read faulted_session) ["5"] 1 (drop 1 (tags faulted_session))
               (<[0%nat := set_Val fld (IntVal (wrap_int bits 5))]> faulty_struct) None /\
    snd (Get faulted_session faulty_struct) !! 0%nat =
      Some (set_Val fld (IntVal (wrap_int bits 5))).
Proof.
  exact (Get_stores_number faulty_source faulty_struct faulty_session faulted_session
           faulty_struct faulty_struct ["5"] [] 0 0 int_k "5"
           eq_refl faulted_reached eq_refl eq_refl eq_refl eq_refl eq_refl 5 eq_refl).
Defined.


(** X9 at [narrow_struct]: 300 in a field of eight bits leaves 44. *)
Lemma Get_narrow_int_wraps_witness :
  NewReadIter narrow_source narrow_struct = (Some narrow_session, None) /\
  ~ in_int_range 8 300 /\
  snd (Get narrow_session narrow_struct) !! 0%nat =
    Some (mkField "N" "" Reflect.Int8 (IntVal 44)) /\
  exists v,
    v <> 300 /\ in_int_range 8 v /\ (v - 300) mod 2 ^ 8 = 0 /\
    Get narrow_session narrow_struct =
      Get_loop (after_Read narrow_session) ["300"] 1 (drop 1 (tags narrow_session))
               (<[0%nat := set_Val (mkField "N" "" Reflect.Int8 (IntVal 0)) (IntVal v)]>
                  narrow_struct) None /\
    snd (Get narrow_session narrow_struct) !! 0%nat =
      Some (set_Val (mkField "N" "" Reflect.Int8 (IntVal 0)) (IntVal v)).
Proof.
  split; [reflexivity|].
  assert (~ in_int_range 8 300) as Hout by (unfold in_int_range; lia).
  split; [exact Hout|]. split; [reflexivity|].
  apply (Get_narrow_int_wraps narrow_source narrow_struct narrow_session narrow_session
           narrow_struct narrow_struct ["300"] [] 0 0 "300" 300
           (mkField "N" "" Reflect.Int8 (IntVal 0)) 8).
  - reflexivity.
  - apply after_no_Get.
  - reflexivity.
  - reflexivity.
  - reflexivity.
  - reflexivity.
  - reflexivity.
  - reflexivity.
  - reflexivity.
  - reflexivity.
  - exact Hout.
Defined.

(** X10 at [switch_struct] and a text the switch takes. *)
Lemma Get_sets_custom_witness :
  NewReadIter switch_on_source switch_struct = (Some switch_on_session, None) /\
  snd (call_Set switch_off "on") = true /\
  snd (Get switch_on_session switch_struct) !! 0%nat =
    Some (mkField "Power" "" Reflect.Bool
            (Custom (mkValueObj bool switch_Value true))) /\
  exists fld v, switch_struct !! 0%nat = Some fld /\
    (Val fld = Custom v \/ Val fld = Dynamic (Some v)) /\
    (snd (call_Set v "on") = true ->
     Get switch_on_session switch_struct =
       Get_loop (after_Read switch_on_session) ["on"] 1
                (drop 1 (tags switch_on_session))
                (<[0%nat := store_receiver fld (fst (call_Set v "on"))]> switch_struct)
                None /\
     snd (Get switch_on_session switch_struct) !! 0%nat =
       Some (store_receiver fld (fst (call_Set v "on")))).
Proof.
  split; [reflexivity|]. split; [reflexivity|]. split; [reflexivity|].
  apply (Get_sets_custom switch_on_source switch_struct switch_on_session
           switch_on_session switch_struct switch_struct ["on"] [] 0 0 "on").
  - reflexivity.
  - apply after_no_Get.
  - reflexivity.
  - reflexivity.
  - reflexivity.
  - reflexivity.
  - reflexivity.
Defined.

(** X11 at the first row of [faulty_source]. *)
Lemma Get_fault_location_witness :
  Get faulty_session faulty_struct = (Returns false, faulted_session, faulty_struct) /\
  exists fi ci rec1,
    tags faulty_session !! fi = Some ci /\
    decodes_upto (after_Read faulty_session) ["x"] fi faulty_struct rec1 /\
    Column faulted_session = ci + 1 /\
    1 <= Column faulted_session <= Z.of_nat (length ["x"]) /\
    Column faulted_session <= Z.of_nat (length (Headers faulty_session)) /\
    Error faulted_session <> None /\
    (forall i, (i < fi)%nat -> faulty_struct !! i = rec1 !! i) /\
    (forall i, (fi < i)%nat -> faulty_struct !! i = faulty_struct !! i).
Proof.
  split; [reflexivity|].
  exact (Get_fault_location faulty_source faulty_struct faulty_session faulty_session
           faulted_session faulty_struct faulty_struct
           eq_refl (looping_start _ _) eq_refl).
Defined.

(** X12 at [blank_struct]: a row as wide as the header. *)
Lemma Get_wide_row_returns_witness :
  exists b this' rec', Get blank_session blank_struct = (Returns b, this', rec').
Proof.
  apply (Get_wide_row_returns blank_source blank_struct blank_session blank_session
           blank_struct ["Ada"; ""; ""] None []).
  - reflexivity.
  - apply after_no_Get.
  - reflexivity.
  - intros _. simpl. lia.
Defined.

(** X13 at [faulty_source] after two calls. *)
Lemma Gets_bookkeeping_witness :
  Reader_ (fst (Gets 2 faulty_session faulty_struct)) =
    Nat.iter 2 (fun r => snd (Read r)) (Reader_ faulty_session) /\
  Line (fst (Gets 2 faulty_session faulty_struct)) = wrap_int 64 (1 + Z.of_nat 2) /\
  (1 + Z.of_nat 2 < 2 ^ 63 ->
   Line (fst (Gets 2 faulty_session faulty_struct)) = 1 + Z.of_nat 2) /\
  Headers (fst (Gets 2 faulty_session faulty_struct)) = Headers faulty_session /\
  kinds (fst (Gets 2 faulty_session faulty_struct)) = kinds faulty_session /\
  tags (fst (Gets 2 faulty_session faulty_struct)) = tags faulty_session /\
  fields (fst (Gets 2 faulty_session faulty_struct)) = fields faulty_session.
Proof.
  apply (Gets_bookkeeping faulty_source faulty_struct faulty_session 2). reflexivity.
Defined.

(** X14 at the second row of [faulty_source], which [Get] decodes. *)
Lemma Get_true_decodes_witness :
  exists row rdr' vals,
    Read (Reader_ faulted_session) = ((row, None), rdr') /\
    index row 0 = Returns vals /\
    exists fld bits z, faulty_struct !! 0%nat = Some fld /\
      int_bits (Kind fld) = Some bits /\
      Strconv.ParseInt (if String.eqb vals "" then "0" else vals) 0 = (z, None) /\
      [mkField "A" "" Reflect.Int (IntVal 5)] !! 0%nat =
        Some (set_Val fld (IntVal (wrap_int bits z))).
Proof.
  exact (Get_true_decodes faulty_source faulty_struct faulty_session faulted_session
           (mkReadIter [] ["A"] (Some (NumError "ParseInt" "x" ErrSyntax)) 3 1
                       [Reflect.FieldOf 0] [int_k] [0])
           faulty_struct [mkField "A" "" Reflect.Int (IntVal 5)] 0 0 int_k
           eq_refl faulted_reached eq_refl eq_refl eq_refl).
Defined.
